(** * tools/visualize_csv.py: argument resolution, loading, charting, saving
      and the summary report of the ALS-Dimmer CSV visualiser.

    The script is embedded shallowly.  Python [str] values are Rocq strings
    holding their UTF-8 bytes (the operations used by the script, [rfind('.')],
    [lstrip('.')], [endswith], [split('/')] and slicing at the positions those
    return, agree on bytes and on code points).  [pathlib] is the pure POSIX
    flavour of CPython 3.4 to 3.13.  Numbers read from the CSV are exact
    rationals, [nan] is a separate value; where machine arithmetic can part
    from the rationals (sums, means, the magnitude of [-2^63]) the result is
    marked as such (see [computed]); the rendering of a number by a format
    specification is kept symbolic (see [frag]).  The file system, pandas'
    reader and matplotlib are an environment the script asks (see [Env]):
    reading the CSV, creating the figure, every plotting call, the layout,
    [savefig] and the print of the success line can each raise there;
    [plt.show] and the other prints are taken to return. *)

From Stdlib Require Import String Ascii List ZArith QArith Qabs Bool Lia.
From Stdlib Require Import Permutation Sorted.
Import ListNotations.
Local Open Scope string_scope.
Local Open Scope Z_scope.

(** ** Python exceptions and results *)

Inductive exn : Type :=
| KeyError (key : string)
| ValueError (msg : string)
| TypeError (msg : string).

Inductive result (A : Type) : Type :=
| Ok (a : A)
| Raise (e : exn).
Arguments Ok {A} a.
Arguments Raise {A} e.

(** ** The [str] methods the script calls *)

Module PyStr.

Definition len (s : string) : Z := Z.of_nat (String.length s).

(** [s[n:]] for [0 <= n]. *)
Fixpoint drop (n : nat) (s : string) : string :=
  match n, s with
  | O, _ => s
  | S n', String _ s' => drop n' s'
  | S _, EmptyString => EmptyString
  end.

(** [s[:n]] for [0 <= n]. *)
Fixpoint take (n : nat) (s : string) : string :=
  match n, s with
  | S n', String a s' => String a (take n' s')
  | _, _ => EmptyString
  end.

(** [s.rfind(c)] for a one-character [c]: highest index of [c], or [-1]. *)
Fixpoint rfind (c : ascii) (s : string) : Z :=
  match s with
  | EmptyString => -1
  | String a s' =>
      let r := rfind c s' in
      if 0 <=? r then r + 1 else if Ascii.eqb a c then 0 else -1
  end.

(** [s.lstrip(c)] for a one-character [c]. *)
Fixpoint lstrip (c : ascii) (s : string) : string :=
  match s with
  | String a s' => if Ascii.eqb a c then lstrip c s' else s
  | EmptyString => EmptyString
  end.

Definition lower_char (a : ascii) : ascii :=
  let n := nat_of_ascii a in
  if andb (Nat.leb 65 n) (Nat.leb n 90) then ascii_of_nat (n + 32) else a.

(** [s.lower()]; bytes outside [A-Z] are left as they are. *)
Fixpoint lower (s : string) : string :=
  match s with
  | EmptyString => EmptyString
  | String a s' => String (lower_char a) (lower s')
  end.

(** [s.endswith(suf)]. *)
Definition endswith (s suf : string) : bool :=
  String.eqb (drop (String.length s - String.length suf) s) suf
  && Nat.leb (String.length suf) (String.length s).

(** [s.split(sep)] for a one-character [sep]. *)
Fixpoint split (sep : ascii) (s : string) : list string :=
  match s with
  | EmptyString => [EmptyString]
  | String a s' =>
      if Ascii.eqb a sep then EmptyString :: split sep s'
      else match split sep s' with
           | h :: t => String a h :: t
           | [] => [String a EmptyString]
           end
  end.

(** [sep.join(l)]. *)
Definition join (sep : string) (l : list string) : string := String.concat sep l.

(** [s * n]. *)
Fixpoint mul (s : string) (n : nat) : string :=
  match n with
  | O => EmptyString
  | S n' => s ++ mul s n'
  end.

(** [c in s] for a one-character [c]. *)
Fixpoint contains (c : ascii) (s : string) : bool :=
  match s with
  | EmptyString => false
  | String a s' => Ascii.eqb a c || contains c s'
  end.

(** [x in l] for a list of strings. *)
Definition mem (x : string) (l : list string) : bool := existsb (String.eqb x) l.

End PyStr.

(** ** pathlib.PurePosixPath *)

Module Pathlib.

(** A parsed path: the root (empty, one slash or two) and the components
    after it ([_tail]); POSIX paths have no drive. *)
Record Path : Type := mkPath { root : string; tail : list string }.

Definition slash : ascii := "/"%char.
Definition dot : ascii := "."%char.

(** [posixpath.splitroot] without the (always empty) drive. *)
Definition splitroot (s : string) : string * string :=
  match s with
  | String a1 (String a2 (String a3 _)) =>
      if Ascii.eqb a1 slash then
        if negb (Ascii.eqb a2 slash) || Ascii.eqb a3 slash
        then ("/", PyStr.drop 1 s) else ("//", PyStr.drop 2 s)
      else (EmptyString, s)
  | String a1 (String a2 EmptyString) =>
      if Ascii.eqb a1 slash then
        if negb (Ascii.eqb a2 slash)
        then ("/", PyStr.drop 1 s) else ("//", PyStr.drop 2 s)
      else (EmptyString, s)
  | String a1 EmptyString =>
      if Ascii.eqb a1 slash then ("/", EmptyString) else (EmptyString, s)
  | EmptyString => (EmptyString, EmptyString)
  end.

Definition keep_part (x : string) : bool :=
  negb (String.eqb x EmptyString) && negb (String.eqb x ".").

(** [Path(s)]: empty and ['.'] components are dropped. *)
Definition of_string (s : string) : Path :=
  let (r, rel) := splitroot s in
  mkPath r (filter keep_part (PyStr.split slash rel)).

(** [str(p)]. *)
Definition to_string (p : Path) : string :=
  match root p, tail p with
  | EmptyString, [] => "."
  | r, t => r ++ PyStr.join "/" t
  end.

(** [p.name]: the final component, empty when there is none. *)
Definition name (p : Path) : string := last (tail p) EmptyString.

Definition suffix_of_name (nm : string) : string :=
  let i := PyStr.rfind dot nm in
  if (0 <? i) && (i <? PyStr.len nm - 1) then PyStr.drop (Z.to_nat i) nm
  else EmptyString.

(** [p.suffix]. *)
Definition suffix (p : Path) : string := suffix_of_name (name p).

(** [p.with_suffix(suf)]. *)
Definition with_suffix (p : Path) (suf : string) : result Path :=
  if PyStr.contains slash suf then
    Raise (ValueError "Invalid suffix")
  else if (negb (String.eqb suf EmptyString) && negb (String.prefix "." suf))
          || String.eqb suf "." then
    Raise (ValueError "Invalid suffix")
  else
    let nm := name p in
    if String.eqb nm EmptyString then
      Raise (ValueError ("PosixPath('" ++ to_string p ++ "') has an empty name"))
    else
      let old_suffix := suffix p in
      let nm' :=
        if String.eqb old_suffix EmptyString then nm ++ suf
        else PyStr.take (String.length nm - String.length old_suffix) nm ++ suf in
      Ok (mkPath (root p) (removelast (tail p) ++ [nm'])).

(** [p.stem]: the final component without its suffix. *)
Definition stem (p : Path) : string :=
  let nm := name p in
  let i := PyStr.rfind dot nm in
  if (0 <? i) && (i <? PyStr.len nm - 1) then PyStr.take (Z.to_nat i) nm
  else nm.

(** What the description calls the path "with its extension replaced": the
    same root and leading components, and the stem followed by the new
    extension as final component. *)
Definition replace_extension (p : Path) (ext : string) : Path :=
  mkPath (root p) (removelast (tail p) ++ [stem p ++ ext]).

End Pathlib.

(** ** parse_arguments *)

(** The [argparse.Namespace] of the script.  [output] and [format] are [None]
    until given on the command line or resolved. *)
Record Namespace : Type := mkNamespace {
  input : string;
  output : option string;
  dpi : Z;
  no_show : bool;
  format : option string
}.

Inductive parsed : Type :=
| UsageError (msg : string)     (* parser.error: message on stderr, exit status 2 *)
| ArgRaises (e : exn)           (* unhandled exception *)
| Parsed (args : Namespace).

Definition format_choices : list string := ["png"; "jpg"; "jpeg"; "pdf"; "svg"].
Definition known_extensions : list string := ["jpg"; "jpeg"; "png"; "pdf"; "svg"].

(** Lines 56-58: the default output path. *)
Definition default_output (inp : string) (out : option string) : result string :=
  match out with
  | Some o => Ok o
  | None =>
      match Pathlib.with_suffix (Pathlib.of_string inp) ".png" with
      | Ok p => Ok (Pathlib.to_string p)
      | Raise e => Raise e
      end
  end.

(** [Path(args.output).suffix.lstrip('.').lower()]. *)
Definition output_ext (out : string) : string :=
  PyStr.lower (PyStr.lstrip Pathlib.dot (Pathlib.suffix (Pathlib.of_string out))).

(** Lines 60-69: format detection; returns the output path and the format. *)
Definition detect_format (out : string) (fmt : option string) : string * string :=
  match fmt with
  | Some f => (out, f)
  | None =>
      let ext := output_ext out in
      if PyStr.mem ext known_extensions then
        (out, if String.eqb ext "jpg" then "jpeg" else ext)
      else
        (if PyStr.endswith out ".png" then out else out ++ ".png", "png")
  end.

(** [parse_arguments], from the namespace [parser.parse_args()] returned
    (line 47) to its end.  A command line that argparse refuses by itself (a
    [--dpi] that is not an integer, no [--input], an unknown option) or
    answers by itself ([--help]) yields no namespace and is not in the domain
    of this function; the [--format] choice is kept here because the
    namespace records the format.  [path_exists] is the answer of
    [Path.exists] where the file system gives one. *)
Definition parse_arguments (path_exists : string -> bool) (ns : Namespace) : parsed :=
  if match format ns with
     | Some f => negb (PyStr.mem f format_choices)
     | None => false
     end
  then UsageError "argument --format: invalid choice"
  else if negb (path_exists (Pathlib.to_string (Pathlib.of_string (input ns)))) then
    UsageError ("Input file not found: " ++ input ns)
  else
    match default_output (input ns) (output ns) with
    | Raise e => ArgRaises e
    | Ok out =>
        let (out', fmt) := detect_format out (format ns) in
        Parsed (mkNamespace (input ns) (Some out') (dpi ns) (no_show ns) (Some fmt))
    end.


(** ** pandas: scalars, Series and DataFrame *)

(** A scalar taken out of a Series: a number, a [str] or [nan]. *)
Inductive scalar : Type :=
| SNum (q : Q)
| SStr (s : string)
| SNaN.

(** A column as [read_csv] types it: numeric ([int64], [float64] and [bool]
    are not told apart), or [object] holding [str] cells; [None] is a missing
    cell ([nan]). *)
Inductive Series : Type :=
| Float64 (l : list (option Q))
| Object (l : list (option string)).

(** A frame: the length of its index and its named columns. *)
Record DataFrame : Type := mkDataFrame {
  nrows : nat;
  columns : list (string * Series)
}.

(** Frames as [read_csv] builds them: every column spans the index. *)
Definition series_length (s : Series) : nat :=
  match s with
  | Float64 l => List.length l
  | Object l => List.length l
  end.

Definition well_formed (df : DataFrame) : bool :=
  forallb (fun cs => Nat.eqb (series_length (snd cs)) (nrows df)) (columns df).

(** [len(df)]. *)
Definition len (df : DataFrame) : nat := nrows df.

Fixpoint lookup {V : Type} (k : string) (l : list (string * V)) : option V :=
  match l with
  | [] => None
  | (k', v) :: l' => if String.eqb k k' then Some v else lookup k l'
  end.

(** [df[c]]. *)
Definition getitem (df : DataFrame) (c : string) : result Series :=
  match lookup c (columns df) with
  | Some s => Ok s
  | None => Raise (KeyError c)
  end.

Definition num_cell (c : option Q) : scalar :=
  match c with Some q => SNum q | None => SNaN end.

Definition str_cell (c : option string) : scalar :=
  match c with Some s => SStr s | None => SNaN end.

(** The cells of a Series, in row order. *)
Definition values (s : Series) : list scalar :=
  match s with
  | Float64 l => map num_cell l
  | Object l => map str_cell l
  end.

(** Python's [==] on scalars: [nan] equals nothing. *)
Definition scalar_eq (a b : scalar) : bool :=
  match a, b with
  | SNum x, SNum y => Qeq_bool x y
  | SStr x, SStr y => String.eqb x y
  | _, _ => false
  end.

(** Key identity of pandas' hash tables: as [==], and all [nan] are one key. *)
Definition same_key (a b : scalar) : bool :=
  match a, b with
  | SNaN, SNaN => true
  | _, _ => scalar_eq a b
  end.

(** [s == v]: the boolean mask. *)
Definition eq_mask (s : Series) (v : scalar) : list bool :=
  map (fun c => scalar_eq c v) (values s).

(** [mask.sum()]. *)
Definition mask_sum (mask : list bool) : nat := count_occ bool_dec mask true.

Fixpoint select {A : Type} (mask : list bool) (l : list A) : list A :=
  match mask, l with
  | b :: mask', x :: l' => if b then x :: select mask' l' else select mask' l'
  | _, _ => []
  end.

Definition select_series (mask : list bool) (s : Series) : Series :=
  match s with
  | Float64 l => Float64 (select mask l)
  | Object l => Object (select mask l)
  end.

(** [df[mask]]: the rows where the mask holds, all columns kept. *)
Definition getitem_mask (df : DataFrame) (mask : list bool) : DataFrame :=
  mkDataFrame (mask_sum mask)
              (map (fun cs => (fst cs, select_series mask (snd cs))) (columns df)).

Fixpoint unique_from (seen : list scalar) (l : list scalar) : list scalar :=
  match l with
  | [] => []
  | x :: l' =>
      if existsb (same_key x) seen then unique_from seen l'
      else x :: unique_from (x :: seen) l'
  end.

(** [s.unique()]: the distinct values in order of appearance. *)
Definition unique (s : Series) : list scalar := unique_from [] (values s).

(** [df.iterrows()]: each row as a mapping from column name to scalar. *)
Definition row_at (df : DataFrame) (i : nat) : list (string * scalar) :=
  map (fun cs => (fst cs, nth i (values (snd cs)) SNaN)) (columns df).

Definition iterrows (df : DataFrame) : list (list (string * scalar)) :=
  map (row_at df) (seq 0 (nrows df)).

(** [row[c]]. *)
Definition row_getitem (row : list (string * scalar)) (c : string) : result scalar :=
  match lookup c row with
  | Some v => Ok v
  | None => Raise (KeyError c)
  end.

(** *** Reductions; missing cells are skipped ([skipna=True]) *)

Fixpoint present {A : Type} (l : list (option A)) : list A :=
  match l with
  | [] => []
  | Some x :: l' => x :: present l'
  | None :: l' => present l'
  end.

Definition has_missing {A : Type} (l : list (option A)) : bool :=
  existsb (fun c => match c with None => true | Some _ => false end) l.

Definition Qmax_b (a b : Q) : Q := if Qle_bool a b then b else a.
Definition Qmin_b (a b : Q) : Q := if Qle_bool a b then a else b.
Definition str_max (a b : string) : string := if String.leb a b then b else a.
Definition str_min (a b : string) : string := if String.leb a b then a else b.

Definition reduce {A : Type} (f : A -> A -> A) (l : list A) : option A :=
  match l with
  | [] => None
  | x :: l' => Some (fold_left f l' x)
  end.

(** An [object] column that mixes [str] and [nan] cannot be reduced: the
    comparison or addition of a [str] and a [float] raises. *)
Definition reduce_object (f : string -> string -> string) (empty : scalar)
           (l : list (option string)) : result scalar :=
  match reduce f (present l) with
  | None => Ok empty
  | Some v => if has_missing l then Raise (TypeError "str and float") else Ok (SStr v)
  end.

(** [s.max()]. *)
Definition series_max (s : Series) : result scalar :=
  match s with
  | Float64 l => Ok (num_cell (reduce Qmax_b (present l)))
  | Object l => reduce_object str_max SNaN l
  end.

(** [s.min()]. *)
Definition series_min (s : Series) : result scalar :=
  match s with
  | Float64 l => Ok (num_cell (reduce Qmin_b (present l)))
  | Object l => reduce_object str_min SNaN l
  end.

Definition Qsum (l : list Q) : Q := fold_left Qplus l 0%Q.

(** A number the script computes in machine arithmetic.  A numeric column
    is an [int64] or a [float64] column, and the frame does not say which:
    [Exact v] is a result that is [v] in both; [Machine q] is the machine
    result of a computation whose exact value is [q], rounded in [float64]
    or wrapped around in [int64], which this development does not
    determine. *)
Inductive computed : Type :=
| Exact (v : scalar)
| Machine (q : Q).

(** An integer. *)
Definition integral (q : Q) : bool := (Qden (Qred q) =? 1)%positive.

(** Cells whose sum is the same in [int64] and in [float64], in any order of
    summation: integers whose magnitudes add up to less than [2^53]. *)
Definition exactly_summable (l : list (option Q)) : bool :=
  forallb integral (present l) &&
  Qle_bool (Qsum (map Qabs (present l))) (inject_Z (2 ^ 53 - 1)).

Definition sum_of (l : list (option Q)) : computed :=
  if exactly_summable l then Exact (SNum (Qsum (present l)))
  else Machine (Qsum (present l)).

(** [s.sum()]. *)
Definition series_sum (s : Series) : result computed :=
  match s with
  | Float64 l => Ok (sum_of l)
  | Object l =>
      match reduce_object String.append (SNum 0%Q) l with
      | Ok v => Ok (Exact v)
      | Raise e => Raise e
      end
  end.

(** The result of [s.abs()]: the magnitudes, and whether they are the same
    in [int64] and in [float64].  They are not when a cell is [-2^63], which
    [int64] leaves negative. *)
Record magnitudes : Type := mkMagnitudes {
  cells : Series;
  determined : bool
}.

Definition abs_determined (l : list (option Q)) : bool :=
  negb (existsb (Qeq_bool (inject_Z (- 2 ^ 63))) (present l)).

(** [s.abs()]. *)
Definition series_abs (s : Series) : result magnitudes :=
  match s with
  | Float64 l => Ok (mkMagnitudes (Float64 (map (option_map Qabs) l)) (abs_determined l))
  | Object l =>
      match present l with
      | [] => Ok (mkMagnitudes (Object l) true)
      | _ :: _ => Raise (TypeError "bad operand type for abs(): 'str'")
      end
  end.

(** A result computed from magnitudes is exact only when they are
    determined. *)
Definition demote (d : bool) (c : computed) : computed :=
  if d then c
  else match c with
       | Exact (SNum q) => Machine q
       | _ => c
       end.

(** The mean of the present cells, when there is one. *)
Definition mean_present (l : list (option Q)) : option Q :=
  match present l with
  | [] => None
  | xs => Some (Qsum xs / inject_Z (Z.of_nat (List.length xs)))%Q
  end.

(** The mean of a numeric column: a sum and a division in [float64], each
    of them rounded. *)
Definition mean_of (l : list (option Q)) : computed :=
  match mean_present l with
  | Some q => Machine q
  | None => Exact SNaN
  end.

(** [s.mean()]. *)
Definition series_mean (s : Series) : result computed :=
  match s with
  | Float64 l => Ok (mean_of l)
  | Object l =>
      match present l with
      | [] => Ok (Exact SNaN)
      | _ :: _ => Raise (TypeError "could not convert string to numeric")
      end
  end.

(** [q / n] on numbers.  On an empty frame every reduction is [nan], and so
    is the quotient. *)
Definition quotient (o : option Q) (n : nat) : option Q :=
  match o, n with
  | Some q, S _ => Some (q / inject_Z (Z.of_nat n))%Q
  | _, _ => None
  end.

(** [v / n] for a reduction result [v] and [n = len(df)]. *)
Definition true_div (v : scalar) (n : nat) : result scalar :=
  match v with
  | SNum q => Ok (num_cell (quotient (Some q) n))
  | SNaN => Ok SNaN
  | SStr _ => Raise (TypeError "unsupported operand type(s) for /: 'str' and 'int'")
  end.

Definition is_nan (v : scalar) : bool :=
  match v with SNaN => true | _ => false end.

(** The number of rows of each distinct value, [nan] left out, in order of
    appearance: the table pandas' hash table builds. *)
Definition tally (s : Series) : list (scalar * nat) :=
  map (fun k => (k, List.length (filter (same_key k) (values s))))
      (filter (fun k => negb (is_nan k)) (unique s)).

(** Sorting a table by decreasing count; entries of equal count keep their
    order, as they do in pandas for the few categories of a log. *)
Fixpoint insert_by_count (e : scalar * nat) (tbl : list (scalar * nat))
  : list (scalar * nat) :=
  match tbl with
  | [] => [e]
  | x :: tbl' =>
      if (snd x <=? snd e)%nat then e :: x :: tbl'
      else x :: insert_by_count e tbl'
  end.

Definition by_count (tbl : list (scalar * nat)) : list (scalar * nat) :=
  fold_right insert_by_count [] tbl.

(** [s.value_counts()]: the tally, most frequent value first. *)
Definition value_counts (s : Series) : list (scalar * nat) := by_count (tally s).

(** [sep.join(l)] for scalars: every item must be a [str]. *)
Fixpoint strings_of (l : list scalar) : result (list string) :=
  match l with
  | [] => Ok []
  | SStr s :: l' =>
      match strings_of l' with
      | Ok r => Ok (s :: r)
      | Raise e => Raise e
      end
  | _ :: _ => Raise (TypeError "sequence item: expected str instance, float found")
  end.

Definition join_scalars (sep : string) (l : list scalar) : result string :=
  match strings_of l with
  | Ok r => Ok (PyStr.join sep r)
  | Raise e => Raise e
  end.

(** [d.get(k, default)] for a dict with [str] keys and a scalar [k]. *)
Definition dict_get (d : list (string * string)) (k : scalar) (default : string) : string :=
  match k with
  | SStr s => match lookup s d with Some v => v | None => default end
  | _ => default
  end.

(** ** What the script prints and draws *)

(** A printed line: literal text, and the numbers handed to a formatter.
    The decimal rendering is the formatter's and is not computed here. *)
Inductive frag : Type :=
| Lit (s : string)                       (* text, and [str] substitutions *)
| Int (n : Z)                            (* [{n}] for a Python [int] *)
| Fixed (prec : nat) (v : option Q)      (* [{v:.<prec>f}]; [None] is [nan] *)
| FixedNear (prec : nat) (q : Q)         (* [{v:.<prec>f}] for the machine value of [q] *)
| Repr (v : computed)                    (* [{v}] for a numpy scalar *)
| Counts (tbl : list (scalar * nat)).    (* the Series printed for [value_counts()],
                                            by decreasing count *)

Definition line : Type := list frag.

Inductive axis : Type := Ax1 | Ax1Twin | Ax2 | Ax2Twin | Ax3 | Ax4.

(** The data-carrying matplotlib calls; labels, titles, grids, legends and
    tick parameters take constants only and are left out. *)
Inductive artist : Type :=
| Plot (x y : Series) (fmt label : string)
| AxHLine (y : Q)
| Scatter (x : Series) (y : list scalar) (label : scalar) (color : string)
| AxVLine (x : scalar).

Definition Figure : Type := list (axis * artist).

Inductive event : Type :=
| Printed (l : line)
| Saved (fname format : option string) (dpi : Z) (fig : Figure)   (* the file written *)
| Shown (fig : Figure).                                              (* the viewer, until closed *)

(** How the process ends. *)
Inductive termination : Type :=
| Exit (code : Z)
| Traceback (e : exn).      (* unhandled exception *)


(** The world outside the script. *)
Record Env : Type := mkEnv {
  path_exists : string -> bool;
  (** [pd.read_csv]: the frame, or the message of the exception raised. *)
  read_csv : string -> string + DataFrame;
  (** [plt.savefig]: [Some] message when it raises. *)
  savefig : option string -> option string -> Z -> Figure -> option string;
  (** [plt.subplots]: the exception it raises, if any. *)
  subplots_error : option exn;
  (** matplotlib's answer to a data-carrying call on the figure so far, and
      to the labels, ticks, grids, legends and titles that follow it before
      the frame is read again: the exception raised, if any (for instance
      the [TypeError] of plotting a text column that has a gap). *)
  draw_error : Figure -> axis -> artist -> option exn;
  (** The last decorations and [plt.tight_layout()]: the exception raised,
      if any. *)
  layout_error : Figure -> option exn;
  (** Printing the check mark of line 170: the message of the
      [UnicodeEncodeError] when the standard output cannot encode it. *)
  check_mark_error : option string
}.

(** ** The script's state and its statements *)

(** The global [df], the current figure, and the effects so far. *)
Record State : Type := mkState {
  st_df : DataFrame;
  st_fig : Figure;
  st_out : list event
}.

Inductive abort : Type :=
| SysExit (code : Z)
| Uncaught (e : exn).

Inductive step (A : Type) : Type :=
| Done (a : A)
| Stop (x : abort).
Arguments Done {A} a.
Arguments Stop {A} x.

Definition M (A : Type) : Type := State -> State * step A.

Definition ret {A : Type} (a : A) : M A := fun s => (s, Done a).

Definition bind {A B : Type} (m : M A) (k : A -> M B) : M B :=
  fun s =>
    match m s with
    | (s', Done a) => k a s'
    | (s', Stop x) => (s', Stop x)
    end.

Notation "x <- m ;; k" := (bind m (fun x => k))
  (at level 61, m at next level, right associativity).
Notation "m ;; k" := (bind m (fun _ => k))
  (at level 61, right associativity).

(** Evaluating an expression that may raise. *)
Definition lift {A : Type} (r : result A) : M A :=
  fun s => match r with
           | Ok a => (s, Done a)
           | Raise e => (s, Stop (Uncaught e))
           end.

(** [sys.exit(code)]. *)
Definition sys_exit (code : Z) : M unit := fun s => (s, Stop (SysExit code)).

(** Reading the global [df]. *)
Definition get_df : M DataFrame := fun s => (s, Done (st_df s)).

Definition get_fig : M Figure := fun s => (s, Done (st_fig s)).

Definition emit (e : event) : M unit :=
  fun s => (mkState (st_df s) (st_fig s) (st_out s ++ [e])%list, Done tt).

(** [print(...)]. *)
Definition print (l : line) : M unit := emit (Printed l).

(** [plt.subplots(4, 1, ...)]: a fresh figure, without artists; it may
    raise, and then there is no figure. *)
Definition subplots (env : Env) : M unit :=
  fun s =>
    match subplots_error env with
    | Some e => (mkState (st_df s) [] (st_out s), Stop (Uncaught e))
    | None => (mkState (st_df s) [] (st_out s), Done tt)
    end.

(** A drawing call on one of the axes; it may raise. *)
Definition draw (env : Env) (ax : axis) (a : artist) : M unit :=
  fun s =>
    match draw_error env (st_fig s) ax a with
    | Some e => (s, Stop (Uncaught e))
    | None => (mkState (st_df s) (st_fig s ++ [(ax, a)])%list (st_out s), Done tt)
    end.

(** [plt.tight_layout()]; it may raise. *)
Definition tight_layout (env : Env) : M unit :=
  fun s =>
    match layout_error env (st_fig s) with
    | Some e => (s, Stop (Uncaught e))
    | None => (s, Done tt)
    end.

Fixpoint for_each {A : Type} (l : list A) (body : A -> M unit) : M unit :=
  match l with
  | [] => ret tt
  | x :: l' => body x ;; for_each l' body
  end.

(** The expression [df[c]] on the global frame. *)
Definition col (c : string) : M Series :=
  df <- get_df ;; lift (getitem df c).

(** ** Lines 90-164: the four panels *)

Definition step_colors : list (string * string) :=
  [("large_up", "red"); ("large_down", "orange"); ("medium_up", "yellow");
   ("medium_down", "lightyellow"); ("small_up", "lightgreen");
   ("small_down", "lightblue"); ("none", "gray"); ("manual", "purple")].

Definition zone_colors : list (string * string) :=
  [("night", "darkblue"); ("indoor", "yellow"); ("outdoor", "orange");
   ("simple", "gray"); ("manual", "purple")].

(** The body shared by the loops of lines 134-137 and 148-151: one scatter
    per distinct value of column [c]. *)
Definition scatter_values (env : Env) (ax : axis) (c : string)
           (colors : list (string * string)) (vs : list scalar) : M unit :=
  for_each vs (fun v =>
    s <- col c ;;
    let mask := eq_mask s v in
    df <- get_df ;;
    x <- lift (getitem (getitem_mask df mask) "timestamp") ;;
    draw env ax (Scatter x (repeat v (mask_sum mask)) v (dict_get colors v "black"))).

Definition compose_chart (env : Env) : M unit :=
  subplots env ;;
  (* Plot 1: lux and brightness *)
  t <- col "timestamp" ;; y <- col "lux" ;;
  draw env Ax1 (Plot t y "g-" "Lux") ;;
  t <- col "timestamp" ;; y <- col "target_brightness" ;;
  draw env Ax1Twin (Plot t y "b--" "Target") ;;
  t <- col "timestamp" ;; y <- col "current_brightness" ;;
  draw env Ax1Twin (Plot t y "r-" "Actual") ;;
  (* Plot 2: error and step size *)
  t <- col "timestamp" ;; y <- col "error" ;;
  draw env Ax2 (Plot t y "b-" "Error") ;;
  draw env Ax2 (AxHLine 0%Q) ;;
  t <- col "timestamp" ;; y <- col "step_size" ;;
  draw env Ax2Twin (Plot t y "r-" "Step Size") ;;
  (* Plot 3: step categories *)
  cats <- col "step_category" ;;
  scatter_values env Ax3 "step_category" step_colors (unique cats) ;;
  (* Plot 4: zone transitions *)
  zs <- col "zone" ;;
  let zones := unique zs in
  scatter_values env Ax4 "zone" zone_colors zones ;;
  zc <- col "zone_changed" ;;
  df <- get_df ;;
  let zone_changes := getitem_mask df (eq_mask zc (SNum 1%Q)) in
  for_each (iterrows zone_changes) (fun row =>
    x <- lift (row_getitem row "timestamp") ;;
    draw env Ax4 (AxVLine x)) ;;
  (* line 164 *)
  tight_layout env.

(** ** Lines 166-180: saving and showing *)

(** [str(x)] of an optional [str]. *)
Definition str_opt (o : option string) : string :=
  match o with Some s => s | None => "None" end.

(** The UTF-8 bytes of the check mark U+2713. *)
Definition check_mark : string :=
  String (ascii_of_nat 226) (String (ascii_of_nat 156) (String (ascii_of_nat 147) EmptyString)).

Definition save_figure (env : Env) (args : Namespace) : M unit :=
  print [Lit ("Saving visualization to: " ++ str_opt (output args))] ;;
  fig <- get_fig ;;
  match savefig env (output args) (format args) (dpi args) fig with
  | None =>
      emit (Saved (output args) (format args) (dpi args) fig) ;;
      (* the print of line 170 is inside the [try] *)
      match check_mark_error env with
      | None =>
          print [Lit (check_mark ++ " Saved successfully (format="
                      ++ str_opt (format args) ++ ", dpi=");
                 Int (dpi args); Lit ")"]
      | Some e =>
          print [Lit ("Error saving plot: " ++ e)] ;;
          sys_exit 1
      end
  | Some e =>
      print [Lit ("Error saving plot: " ++ e)] ;;
      sys_exit 1
  end.

Definition display (args : Namespace) : M unit :=
  if negb (no_show args) then
    print [Lit "Displaying plot (close window to continue)..."] ;;
    fig <- get_fig ;;
    emit (Shown fig)
  else
    print [Lit "Skipping interactive display (--no-show)"].

(** ** Lines 182-196: the summary *)

(** [{v:.<prec>f}]. *)
Definition format_f (prec : nat) (v : scalar) : result frag :=
  match v with
  | SNum q => Ok (Fixed prec (Some q))
  | SNaN => Ok (Fixed prec None)
  | SStr _ => Raise (ValueError "Unknown format code 'f' for object of type 'str'")
  end.

(** [f"{v:.<prec>f}"] for a computed number. *)
Definition format_c (prec : nat) (c : computed) : result frag :=
  match c with
  | Exact v => format_f prec v
  | Machine q => Ok (FixedNear prec q)
  end.

Definition newline : string := String (ascii_of_nat 10) EmptyString.

Definition summary_statistics : M unit :=
  print [Lit (newline ++ PyStr.mul "=" 60)] ;;
  print [Lit "SUMMARY STATISTICS"] ;;
  print [Lit (PyStr.mul "=" 60)] ;;
  df <- get_df ;;
  print [Lit "Total iterations: "; Int (Z.of_nat (len df))] ;;
  t <- col "timestamp" ;; m <- lift (series_max t) ;; d <- lift (format_f 1 m) ;;
  print [Lit "Duration: "; d; Lit " seconds"] ;;
  t <- col "timestamp" ;; m <- lift (series_max t) ;; df <- get_df ;;
  q <- lift (true_div m (len df)) ;; i <- lift (format_f 3 q) ;;
  print [Lit "Update interval: ~"; i; Lit " seconds"] ;;
  l <- col "lux" ;; lo <- lift (series_min l) ;; lo <- lift (format_f 1 lo) ;;
  l <- col "lux" ;; hi <- lift (series_max l) ;; hi <- lift (format_f 1 hi) ;;
  print [Lit "Lux range: "; lo; Lit " - "; hi] ;;
  b <- col "current_brightness" ;; lo <- lift (series_min b) ;; lo <- lift (format_f 0 lo) ;;
  b <- col "current_brightness" ;; hi <- lift (series_max b) ;; hi <- lift (format_f 0 hi) ;;
  print [Lit "Brightness range: "; lo; Lit "% - "; hi; Lit "%"] ;;
  z <- col "zone" ;; zs <- lift (join_scalars ", " (unique z)) ;;
  print [Lit ("Zones visited: " ++ zs)] ;;
  zc <- col "zone_changed" ;; n <- lift (series_sum zc) ;;
  print [Lit "Zone changes: "; Repr n] ;;
  print [Lit (newline ++ "Step category distribution:")] ;;
  sc <- col "step_category" ;;
  print [Counts (value_counts sc)] ;;
  e <- col "error" ;; a <- lift (series_abs e) ;; v <- lift (series_mean (cells a)) ;;
  v <- lift (format_c 2 (demote (determined a) v)) ;;
  print [Lit (newline ++ "Average error: "); v; Lit "%"] ;;
  e <- col "error" ;; a <- lift (series_abs e) ;; v <- lift (series_max (cells a)) ;;
  v <- lift (format_c 0 (demote (determined a) (Exact v))) ;;
  print [Lit "Max error: "; v; Lit "%"].

(** ** Lines 73-88 and the whole script *)

(** Everything after the frame is loaded. *)
Definition after_load (env : Env) (args : Namespace) : M unit :=
  compose_chart env ;;
  save_figure env args ;;
  display args ;;
  summary_statistics.

Definition loading_line (args : Namespace) : event :=
  Printed [Lit ("Loading data from: " ++ input args)].

Definition load_error_line (e : string) : event :=
  Printed [Lit ("Error loading CSV: " ++ e)].

Definition empty_line : event := Printed [Lit "Error: CSV file is empty"].

Definition loaded_line (df : DataFrame) : event :=
  Printed [Lit "Loaded "; Int (Z.of_nat (len df)); Lit " data points"].

Definition terminated (r : step unit) : termination :=
  match r with
  | Done _ => Exit 0
  | Stop (SysExit c) => Exit c
  | Stop (Uncaught e) => Traceback e
  end.

(** The script from line 76 on, for resolved arguments: its effects in order
    and how it ends. *)
Definition run (env : Env) (args : Namespace) : list event * termination :=
  match read_csv env (input args) with
  | inl e => ([loading_line args; load_error_line e], Exit 1)
  | inr df =>
      if Nat.eqb (len df) 0 then ([loading_line args; empty_line], Exit 1)
      else
        let (s, r) := after_load env args
                        (mkState df [] [loading_line args; loaded_line df]) in
        (st_out s, terminated r)
  end.

(** The script from its command line (as argparse read it). *)
Definition main (env : Env) (ns : Namespace) : list event * termination :=
  match parse_arguments (path_exists env) ns with
  | UsageError _ => ([], Exit 2)
  | ArgRaises e => ([], Traceback e)
  | Parsed args => run env args
  end.

(** ** Notions used by the statements below *)

(** A statement leaves a component of the state as it found it. *)
Definition keeps {A X : Type} (proj : State -> X) (m : M A) : Prop :=
  forall s, proj (fst (m s)) = proj s.

(** A statement whose result and printed lines are determined by the frame
    alone: from two states holding the same frame it ends the same way and
    appends the same events. *)
Definition frame_determined {A : Type} (m : M A) : Prop :=
  forall s1 s2, st_df s1 = st_df s2 ->
    snd (m s1) = snd (m s2) /\
    st_df (fst (m s1)) = st_df (fst (m s2)) /\
    exists out, st_out (fst (m s1)) = (st_out s1 ++ out)%list /\
                st_out (fst (m s2)) = (st_out s2 ++ out)%list.

(** The summary of a frame: the events [summary_statistics] appends and how
    it ends, started from nothing. *)
Definition summary_report (df : DataFrame) : list event * step unit :=
  let (s, r) := summary_statistics (mkState df [] []) in (st_out s, r).

(** Lines 90-180 as one statement. *)
Definition before_summary (env : Env) (args : Namespace) : M unit :=
  compose_chart env ;; save_figure env args ;; display args.

(** The nine columns, in the order the script first reads them. *)
Definition required_columns : list string :=
  ["timestamp"; "lux"; "target_brightness"; "current_brightness"; "error";
   "step_size"; "step_category"; "zone"; "zone_changed"].

Definition has_column (df : DataFrame) (c : string) : bool :=
  match lookup c (columns df) with Some _ => true | None => false end.

Definition first_missing (df : DataFrame) : option string :=
  find (fun c => negb (has_column df c)) required_columns.


(** The number of rows whose [zone_changed] equals 1, counted as line 154
    selects them. *)
Definition zone_change_rows (zc : Series) : nat := mask_sum (eq_mask zc (SNum 1%Q)).


(** The sequence of first occurrences, in the description's words: a row
    contributes its zone when no earlier row has it. *)
Fixpoint first_occurrences (before rows : list string) : list string :=
  match rows with
  | [] => []
  | z :: rest =>
      if PyStr.mem z before then first_occurrences (before ++ [z])%list rest
      else z :: first_occurrences (before ++ [z])%list rest
  end.

(** [m] is the greatest present cell of [l]; [nan] when there is none. *)
Definition greatest (l : list (option Q)) (m : scalar) : Prop :=
  match m with
  | SNum q => In (Some q) l /\ forall x, In (Some x) l -> (x <= q)%Q
  | SNaN => forall x, ~ In (Some x) l
  | SStr _ => False
  end.

(** Paths as [Path(...)] builds them. *)
Definition good_part (x : string) : Prop :=
  x <> EmptyString /\ x <> "." /\ PyStr.contains Pathlib.slash x = false.

Definition normal (p : Pathlib.Path) : Prop :=
  (Pathlib.root p = EmptyString \/ Pathlib.root p = "/" \/ Pathlib.root p = "//") /\
  Forall good_part (Pathlib.tail p).

(** Frames that follow the data model of the log: numbers in the six
    measurement columns and in the flag column, text without gaps in the two
    categorical columns. *)
Definition is_numeric (s : Series) : bool :=
  match s with Float64 _ => true | Object _ => false end.

Definition is_text (s : Series) : bool :=
  match s with Object l => negb (has_missing l) | Float64 _ => false end.

Definition column_is (df : DataFrame) (c : string) (p : Series -> bool) : bool :=
  match lookup c (columns df) with Some s => p s | None => false end.

Definition conforming (df : DataFrame) : bool :=
  column_is df "timestamp" is_numeric && column_is df "lux" is_numeric &&
  column_is df "target_brightness" is_numeric &&
  column_is df "current_brightness" is_numeric &&
  column_is df "error" is_numeric && column_is df "step_size" is_numeric &&
  column_is df "step_category" is_text && column_is df "zone" is_text &&
  column_is df "zone_changed" is_numeric.

(** The fragment a computed number of a numeric column is formatted to. *)
Definition fixed_of (prec : nat) (c : computed) : frag :=
  match c with
  | Exact (SNum q) => Fixed prec (Some q)
  | Exact _ => Fixed prec None
  | Machine q => FixedNear prec q
  end.

(** The summary of a conforming frame, from its row count and columns. *)
Definition conforming_report (n : nat) (ts lux cb err zc : list (option Q))
           (cats zones : list (option string)) : list event :=
  [Printed [Lit (newline ++ PyStr.mul "=" 60)];
   Printed [Lit "SUMMARY STATISTICS"];
   Printed [Lit (PyStr.mul "=" 60)];
   Printed [Lit "Total iterations: "; Int (Z.of_nat n)];
   Printed [Lit "Duration: "; Fixed 1 (reduce Qmax_b (present ts)); Lit " seconds"];
   Printed [Lit "Update interval: ~";
            Fixed 3 (quotient (reduce Qmax_b (present ts)) n); Lit " seconds"];
   Printed [Lit "Lux range: "; Fixed 1 (reduce Qmin_b (present lux)); Lit " - ";
            Fixed 1 (reduce Qmax_b (present lux))];
   Printed [Lit "Brightness range: "; Fixed 0 (reduce Qmin_b (present cb)); Lit "% - ";
            Fixed 0 (reduce Qmax_b (present cb)); Lit "%"];
   Printed [Lit ("Zones visited: " ++ PyStr.join ", " (first_occurrences [] (present zones)))];
   Printed [Lit "Zone changes: "; Repr (sum_of zc)];
   Printed [Lit (newline ++ "Step category distribution:")];
   Printed [Counts (value_counts (Object cats))];
   Printed [Lit (newline ++ "Average error: ");
            fixed_of 2 (demote (abs_determined err)
                               (mean_of (map (option_map Qabs) err)));
            Lit "%"];
   Printed [Lit "Max error: ";
            fixed_of 0 (demote (abs_determined err)
                          (Exact (num_cell (reduce Qmax_b
                                              (present (map (option_map Qabs) err))))));
            Lit "%"]].

(** *** Sample data *)

Definition cell (z : Z) : option Q := Some (inject_Z z).

(** Three well-formed rows. *)
Definition df_sample : DataFrame := mkDataFrame 3
  [("timestamp", Float64 [cell 0; cell 1; cell 2]);
   ("lux", Float64 [cell 10; cell 20; cell 15]);
   ("target_brightness", Float64 [cell 10; cell 20; cell 15]);
   ("current_brightness", Float64 [cell 10; cell 18; cell 15]);
   ("error", Float64 [cell 0; cell 2; cell (-3)]);
   ("step_size", Float64 [cell 0; cell 2; cell 0]);
   ("step_category", Object [Some "none"; Some "small_up"; Some "none"]);
   ("zone", Object [Some "indoor"; Some "outdoor"; Some "indoor"]);
   ("zone_changed", Float64 [cell 0; cell 1; cell 0])].


(** One row whose [zone_changed] cell is 2. *)
Definition df_flag2 : DataFrame := mkDataFrame 1
  [("timestamp", Float64 [cell 0]);
   ("lux", Float64 [cell 10]);
   ("target_brightness", Float64 [cell 10]);
   ("current_brightness", Float64 [cell 10]);
   ("error", Float64 [cell 0]);
   ("step_size", Float64 [cell 0]);
   ("step_category", Object [Some "none"]);
   ("zone", Object [Some "indoor"]);
   ("zone_changed", Float64 [cell 2])].

(** A header without rows. *)
Definition df_header_only : DataFrame :=
  mkDataFrame 0 (map (fun c => (c, Float64 [])) required_columns).

Definition env_of (csv : string + DataFrame) (save_error : option string) : Env :=
  mkEnv (fun _ => true) (fun _ => csv) (fun _ _ _ _ => save_error)
        None (fun _ _ _ => None) (fun _ => None) None.

(** Two rows whose [lux] column is text with a gap, in a frame that has no
    [zone_changed] column. *)
Definition df_text_lux : DataFrame := mkDataFrame 2
  [("timestamp", Float64 [cell 0; cell 1]);
   ("lux", Object [Some "lo"; None]);
   ("target_brightness", Float64 [cell 10; cell 20]);
   ("current_brightness", Float64 [cell 10; cell 18]);
   ("error", Float64 [cell 0; cell 2]);
   ("step_size", Float64 [cell 0; cell 2]);
   ("step_category", Object [Some "none"; Some "small_up"]);
   ("zone", Object [Some "indoor"; Some "outdoor"])].

(** A curve over a text column that has a gap. *)
Definition gappy_text_curve (a : artist) : bool :=
  match a with
  | Plot _ (Object l) _ _ => has_missing l
  | _ => false
  end.

(** A figure library that refuses such curves, as matplotlib's category
    axis does. *)
Definition env_strict (csv : string + DataFrame) : Env :=
  mkEnv (fun _ => true) (fun _ => csv) (fun _ _ _ _ => None)
        None
        (fun _ _ a =>
           if gappy_text_curve a
           then Some (TypeError "'value' must be an instance of str or bytes, not a float")
           else None)
        (fun _ => None) None.

Definition args_sample : Namespace :=
  mkNamespace "a.csv" (Some "a.png") 150 true (Some "png").

Definition args_other : Namespace :=
  mkNamespace "b.csv" (Some "plot.pdf") 300 false (Some "pdf").

Definition state_loaded (args : Namespace) (df : DataFrame) : State :=
  mkState df [] [loading_line args; loaded_line df].

Definition saving_line (args : Namespace) : event :=
  Printed [Lit ("Saving visualization to: " ++ str_opt (output args))].

Definition save_error_line (e : string) : event :=
  Printed [Lit ("Error saving plot: " ++ e)].

(** The lines the summary can print for a frame, each with the values the
    script computes for it. *)
Inductive summary_line (df : DataFrame) : event -> Prop :=
| SL_rule_top : summary_line df (Printed [Lit (newline ++ PyStr.mul "=" 60)])
| SL_title : summary_line df (Printed [Lit "SUMMARY STATISTICS"])
| SL_rule_bottom : summary_line df (Printed [Lit (PyStr.mul "=" 60)])
| SL_total : summary_line df (Printed [Lit "Total iterations: "; Int (Z.of_nat (len df))])
| SL_duration t m d :
    getitem df "timestamp" = Ok t -> series_max t = Ok m -> format_f 1 m = Ok d ->
    summary_line df (Printed [Lit "Duration: "; d; Lit " seconds"])
| SL_interval t m q i :
    getitem df "timestamp" = Ok t -> series_max t = Ok m ->
    true_div m (len df) = Ok q -> format_f 3 q = Ok i ->
    summary_line df (Printed [Lit "Update interval: ~"; i; Lit " seconds"])
| SL_lux l lo hi flo fhi :
    getitem df "lux" = Ok l ->
    series_min l = Ok lo -> format_f 1 lo = Ok flo ->
    series_max l = Ok hi -> format_f 1 hi = Ok fhi ->
    summary_line df (Printed [Lit "Lux range: "; flo; Lit " - "; fhi])
| SL_brightness b lo hi flo fhi :
    getitem df "current_brightness" = Ok b ->
    series_min b = Ok lo -> format_f 0 lo = Ok flo ->
    series_max b = Ok hi -> format_f 0 hi = Ok fhi ->
    summary_line df (Printed [Lit "Brightness range: "; flo; Lit "% - "; fhi; Lit "%"])
| SL_zones z zs :
    getitem df "zone" = Ok z -> join_scalars ", " (unique z) = Ok zs ->
    summary_line df (Printed [Lit ("Zones visited: " ++ zs)])
| SL_changes zc n :
    getitem df "zone_changed" = Ok zc -> series_sum zc = Ok n ->
    summary_line df (Printed [Lit "Zone changes: "; Repr n])
| SL_distribution_head :
    summary_line df (Printed [Lit (newline ++ "Step category distribution:")])
| SL_distribution sc :
    getitem df "step_category" = Ok sc ->
    summary_line df (Printed [Counts (value_counts sc)])
| SL_average e a v f :
    getitem df "error" = Ok e -> series_abs e = Ok a -> series_mean (cells a) = Ok v ->
    format_c 2 (demote (determined a) v) = Ok f ->
    summary_line df (Printed [Lit (newline ++ "Average error: "); f; Lit "%"])
| SL_maximum e a v f :
    getitem df "error" = Ok e -> series_abs e = Ok a -> series_max (cells a) = Ok v ->
    format_c 0 (demote (determined a) (Exact v)) = Ok f ->
    summary_line df (Printed [Lit "Max error: "; f; Lit "%"]).

(** Creating the figure or some drawing call raises [e]. *)
Definition draw_raised (env : Env) (e : exn) : Prop :=
  (exists fig ax a, draw_error env fig ax a = Some e) \/ subplots_error env = Some e.

(** On a frame [df], a statement ends, without printing, with an unhandled
    exception: [KeyError c], unless a plotting call raised before. *)
Definition key_fails {A : Type} (env : Env) (df : DataFrame) (c : string) (m : M A) : Prop :=
  forall s, st_df s = df ->
    (exists e, snd (m s) = Stop (Uncaught e) /\ (e = KeyError c \/ draw_raised env e)) /\
    st_out (fst (m s)) = st_out s.

(** On a frame [df], a statement neither prints nor touches the frame, and
    completes unless a drawing call raises. *)
Definition quiet_ok {A : Type} (env : Env) (df : DataFrame) (m : M A) : Prop :=
  forall s, st_df s = df ->
    ((exists a, snd (m s) = Done a) \/
     (exists e, snd (m s) = Stop (Uncaught e) /\ draw_raised env e)) /\
    st_df (fst (m s)) = df /\ st_out (fst (m s)) = st_out s.

(** The command line passes argparse's [choices] check for [--format]. *)
Definition format_accepted (ns : Namespace) : bool :=
  match format ns with
  | Some f => PyStr.mem f format_choices
  | None => true
  end.

(** The formats the inference of lines 61-69 can produce. *)
Definition inferred_formats : list string := ["png"; "jpeg"; "pdf"; "svg"].

(** [m] is the least present cell of [l]; [nan] when there is none. *)
Definition least (l : list (option Q)) (m : scalar) : Prop :=
  match m with
  | SNum q => In (Some q) l /\ forall x, In (Some x) l -> (q <= x)%Q
  | SNaN => forall x, ~ In (Some x) l
  | SStr _ => False
  end.

(** The total of a frequency table. *)
Definition total_count (tbl : list (scalar * nat)) : nat :=
  fold_right (fun kn acc => (snd kn + acc)%nat) 0%nat tbl.

(** No two keys of the list are the same key. *)
Fixpoint distinct_keys (ks : list scalar) : Prop :=
  match ks with
  | [] => True
  | k :: ks' => existsb (same_key k) ks' = false /\ distinct_keys ks'
  end.

(** The number of keys of [ks] that [x] falls under. *)
Definition hits (ks : list scalar) (x : scalar) : nat :=
  List.length (filter (fun k => same_key k x) ks).

(** The frequency table of the keys [ks] over the cells [l]. *)
Definition count_table (ks l : list scalar) : list (scalar * nat) :=
  map (fun k => (k, List.length (filter (same_key k) l))) ks.

(** A cell that holds a value. *)
Definition not_nan (v : scalar) : bool := negb (is_nan v).

(** *** The chart of a frame, artist by artist *)


(** The scatter of one value [v] of column [c]: the timestamps of the rows
    holding [v], each at height [v]. *)
Definition scatter_of (ax : axis) (colors : list (string * string)) (ts c : Series)
           (v : scalar) : axis * artist :=
  (ax, Scatter (select_series (eq_mask c v) ts) (repeat v (mask_sum (eq_mask c v))) v
               (dict_get colors v "black")).



(** A scatter of the chart: the scatter of one distinct step category on
    panel 3 or of one distinct zone on panel 4.  Other artists pass. *)
Definition chart_scatter (ts cats zones : Series) (e : axis * artist) : Prop :=
  match snd e with
  | Scatter _ _ lbl _ =>
      (In lbl (unique cats) /\ e = scatter_of Ax3 step_colors ts cats lbl) \/
      (In lbl (unique zones) /\ e = scatter_of Ax4 zone_colors ts zones lbl)
  | _ => True
  end.

(** On a frame [df], a statement keeps the frame and keeps every artist of
    the figure within [Q], however it ends. *)
Definition inv_kept {A : Type} (df : DataFrame) (Q : axis * artist -> Prop) (m : M A) : Prop :=
  forall s, st_df s = df -> Forall Q (st_fig s) ->
    st_df (fst (m s)) = df /\ Forall Q (st_fig (fst (m s))).


(** The scatters of a figure, in drawing order. *)
Fixpoint scatters (fig : Figure) : list (axis * artist) :=
  match fig with
  | [] => []
  | (ax, Scatter x y l c) :: fig' => (ax, Scatter x y l c) :: scatters fig'
  | _ :: fig' => scatters fig'
  end.

(** The last lines of a successful save and the display step. *)
Definition saved_line (args : Namespace) : event :=
  Printed [Lit (check_mark ++ " Saved successfully (format=" ++ str_opt (format args)
                ++ ", dpi=");
           Int (dpi args); Lit ")"].

Definition display_events (args : Namespace) (fig : Figure) : list event :=
  if negb (no_show args) then
    [Printed [Lit "Displaying plot (close window to continue)..."]; Shown fig]
  else [Printed [Lit "Skipping interactive display (--no-show)"]].


(** On a frame [df], a statement completes or ends with an unhandled
    exception; it never leaves through [sys.exit]. *)
Definition orderly {A : Type} (df : DataFrame) (m : M A) : Prop :=
  forall s, st_df s = df ->
    st_df (fst (m s)) = df /\
    ((exists a, snd (m s) = Done a) \/ (exists e, snd (m s) = Stop (Uncaught e))).

(** The six ways a run can go, each with its trace and its end. *)
Inductive run_case (env : Env) (args : Namespace) : list event * termination -> Prop :=
| RunLoadError e :
    read_csv env (input args) = inl e ->
    run_case env args ([loading_line args; load_error_line e], Exit 1)
| RunEmpty df :
    read_csv env (input args) = inr df -> len df = 0%nat ->
    run_case env args ([loading_line args; empty_line], Exit 1)
| RunChartRaises df s1 e :
    read_csv env (input args) = inr df -> len df <> 0%nat ->
    compose_chart env (state_loaded args df) = (s1, Stop (Uncaught e)) ->
    run_case env args ([loading_line args; loaded_line df], Traceback e)
| RunSaveError df s1 e :
    read_csv env (input args) = inr df -> len df <> 0%nat ->
    first_missing df = None ->
    compose_chart env (state_loaded args df) = (s1, Done tt) ->
    savefig env (output args) (format args) (dpi args) (st_fig s1) = Some e ->
    run_case env args
      ([loading_line args; loaded_line df; saving_line args; save_error_line e], Exit 1)
| RunSavedUnreported df s1 e :
    read_csv env (input args) = inr df -> len df <> 0%nat ->
    first_missing df = None ->
    compose_chart env (state_loaded args df) = (s1, Done tt) ->
    savefig env (output args) (format args) (dpi args) (st_fig s1) = None ->
    check_mark_error env = Some e ->
    run_case env args
      ([loading_line args; loaded_line df; saving_line args;
        Saved (output args) (format args) (dpi args) (st_fig s1); save_error_line e],
       Exit 1)
| RunSaved df s1 :
    read_csv env (input args) = inr df -> len df <> 0%nat ->
    first_missing df = None ->
    compose_chart env (state_loaded args df) = (s1, Done tt) ->
    savefig env (output args) (format args) (dpi args) (st_fig s1) = None ->
    check_mark_error env = None ->
    run_case env args
      (([loading_line args; loaded_line df; saving_line args;
         Saved (output args) (format args) (dpi args) (st_fig s1); saved_line args]
        ++ display_events args (st_fig s1) ++ fst (summary_report df))%list,
       terminated (snd (summary_report df))).

(** The event is a file written by [savefig]. *)
Definition is_saved (ev : event) : bool :=
  match ev with Saved _ _ _ _ => true | _ => false end.


(** * Properties *)

(** ** Frame lemmas for the statements *)

Section Frame.

Context {X : Type} (proj : State -> X).

Lemma keeps_ret {A : Type} (a : A) : keeps proj (ret a).
Proof. intro s. reflexivity. Qed.

Lemma keeps_bind {A B : Type} (m : M A) (k : A -> M B) :
  keeps proj m -> (forall a, keeps proj (k a)) -> keeps proj (bind m k).
Proof.
  intros Hm Hk s. unfold bind.
  specialize (Hm s). destruct (m s) as [s' [a | x]]; simpl in *.
  - rewrite Hk. exact Hm.
  - exact Hm.
Qed.

Lemma keeps_lift {A : Type} (r : result A) : keeps proj (lift r).
Proof. intro s. destruct r; reflexivity. Qed.

Lemma keeps_sys_exit (c : Z) : keeps proj (sys_exit c).
Proof. intro s. reflexivity. Qed.

Lemma keeps_get_df : keeps proj get_df.
Proof. intro s. reflexivity. Qed.

Lemma keeps_get_fig : keeps proj get_fig.
Proof. intro s. reflexivity. Qed.

Lemma keeps_for_each {A : Type} (l : list A) (body : A -> M unit) :
  (forall x, keeps proj (body x)) -> keeps proj (for_each l body).
Proof.
  intro Hb. induction l as [| x l IH]; simpl.
  - apply keeps_ret.
  - apply keeps_bind; [apply Hb | intros _; exact IH].
Qed.

Lemma keeps_col (c : string) : keeps proj (col c).
Proof. apply keeps_bind; [apply keeps_get_df | intro; apply keeps_lift]. Qed.

End Frame.

(** None of the primitive statements assigns to [df]. *)

Lemma emit_keeps_df (e : event) : keeps st_df (emit e).
Proof. intro s. reflexivity. Qed.

Lemma draw_keeps_df (env : Env) (ax : axis) (a : artist) : keeps st_df (draw env ax a).
Proof. intro s. unfold draw. destruct (draw_error env _ _ _); reflexivity. Qed.

Lemma tight_layout_keeps_df (env : Env) : keeps st_df (tight_layout env).
Proof. intro s. unfold tight_layout. destruct (layout_error env _); reflexivity. Qed.

Lemma subplots_keeps_df (env : Env) : keeps st_df (subplots env).
Proof. intro s. unfold subplots. destruct (subplots_error env); reflexivity. Qed.

(** Drawing prints nothing. *)

Lemma draw_keeps_out (env : Env) (ax : axis) (a : artist) : keeps st_out (draw env ax a).
Proof. intro s. unfold draw. destruct (draw_error env _ _ _); reflexivity. Qed.

Lemma tight_layout_keeps_out (env : Env) : keeps st_out (tight_layout env).
Proof. intro s. unfold tight_layout. destruct (layout_error env _); reflexivity. Qed.

Lemma subplots_keeps_out (env : Env) : keeps st_out (subplots env).
Proof. intro s. unfold subplots. destruct (subplots_error env); reflexivity. Qed.

Ltac frame_step :=
  first
    [ apply keeps_bind; [| intro]
    | apply keeps_col
    | apply keeps_lift
    | apply keeps_ret
    | apply keeps_sys_exit
    | apply keeps_get_df
    | apply keeps_get_fig
    | apply emit_keeps_df
    | apply draw_keeps_df
    | apply subplots_keeps_df
    | apply draw_keeps_out
    | apply tight_layout_keeps_df
    | apply tight_layout_keeps_out
    | apply subplots_keeps_out
    | apply keeps_for_each; intro ].

Ltac frame := repeat frame_step.

Lemma scatter_values_keeps_df env ax c colors vs :
  keeps st_df (scatter_values env ax c colors vs).
Proof. unfold scatter_values. frame. Qed.

Lemma scatter_values_keeps_out env ax c colors vs :
  keeps st_out (scatter_values env ax c colors vs).
Proof. unfold scatter_values. frame. Qed.

Lemma compose_chart_keeps_df env : keeps st_df (compose_chart env).
Proof.
  unfold compose_chart.
  repeat first [apply scatter_values_keeps_df | frame_step].
Qed.

Lemma compose_chart_keeps_out env : keeps st_out (compose_chart env).
Proof.
  unfold compose_chart.
  repeat first [apply scatter_values_keeps_out | frame_step].
Qed.

Lemma save_figure_keeps_df env args : keeps st_df (save_figure env args).
Proof.
  unfold save_figure, print. frame.
  destruct (savefig env _ _ _ _); [| destruct (check_mark_error env)]; frame.
Qed.

Lemma display_keeps_df args : keeps st_df (display args).
Proof. unfold display, print. destruct (negb _); frame. Qed.

Lemma summary_statistics_keeps_df : keeps st_df summary_statistics.
Proof. unfold summary_statistics, print. frame. Qed.

(** ** The frame is never written *)

(** C7: after the CSV is read, chart composition, saving, displaying and the
    summary each leave the in-memory table exactly as the loader produced it,
    whether or not they run to their end; so does the whole pipeline, and each
    step therefore reads the loader's table. *)
Theorem table_read_only (env : Env) (args : Namespace) (s0 : State) :
  let s1 := fst (compose_chart env s0) in
  let s2 := fst (save_figure env args s1) in
  let s3 := fst (display args s2) in
  let s4 := fst (summary_statistics s3) in
  st_df s1 = st_df s0 /\ st_df s2 = st_df s0 /\ st_df s3 = st_df s0 /\
  st_df s4 = st_df s0 /\
  st_df (fst (after_load env args s0)) = st_df s0.
Proof.
  cbv zeta.
  assert (H1 := compose_chart_keeps_df env s0).
  assert (H2 := save_figure_keeps_df env args (fst (compose_chart env s0))).
  assert (H3 := display_keeps_df args (fst (save_figure env args (fst (compose_chart env s0))))).
  assert (H4 := summary_statistics_keeps_df
                  (fst (display args (fst (save_figure env args (fst (compose_chart env s0))))))).
  repeat split.
  - exact H1.
  - congruence.
  - congruence.
  - congruence.
  - assert (K : keeps st_df (after_load env args)).
    { unfold after_load.
      apply keeps_bind; [apply compose_chart_keeps_df | intro].
      apply keeps_bind; [apply save_figure_keeps_df | intro].
      apply keeps_bind; [apply display_keeps_df | intro].
      apply summary_statistics_keeps_df. }
    apply K.
Qed.

(** ** Loading *)

Lemma load_error_not_empty (e : string) : load_error_line e <> empty_line.
Proof. unfold load_error_line, empty_line. simpl. discriminate. Qed.

(** C3: a file that parses to a frame without rows ends the run with the
    line "Error: CSV file is empty" and status 1; a file that fails to parse
    ends it with the line "Error loading CSV: " followed by the parse error
    and status 1; in both runs the only line before it is the loading
    notice; the two messages differ whatever the parse error says. *)
Theorem load_failures_exit_1 (env : Env) (args : Namespace) :
  (forall df, read_csv env (input args) = inr df -> len df = 0%nat ->
     run env args =
       ([Printed [Lit ("Loading data from: " ++ input args)];
         Printed [Lit "Error: CSV file is empty"]], Exit 1)) /\
  (forall e, read_csv env (input args) = inl e ->
     run env args =
       ([Printed [Lit ("Loading data from: " ++ input args)];
         Printed [Lit ("Error loading CSV: " ++ e)]], Exit 1)) /\
  (forall e, Printed [Lit ("Error loading CSV: " ++ e)]
             <> Printed [Lit "Error: CSV file is empty"]).
Proof.
  split; [| split].
  - intros df Hr Hl. unfold run. rewrite Hr, Hl. reflexivity.
  - intros e Hr. unfold run. rewrite Hr. reflexivity.
  - intros e H. simpl in H. discriminate H.
Qed.

Lemma load_failures_exit_1_witness :
  run (env_of (inr df_header_only) None) args_sample
    = ([Printed [Lit "Loading data from: a.csv"];
        Printed [Lit "Error: CSV file is empty"]], Exit 1) /\
  run (env_of (inl "No columns to parse from file") None) args_sample
    = ([Printed [Lit "Loading data from: a.csv"];
        Printed [Lit "Error loading CSV: No columns to parse from file"]], Exit 1).
Proof.
  split.
  - apply (proj1 (load_failures_exit_1 (env_of (inr df_header_only) None) args_sample)
             df_header_only); reflexivity.
  - apply (proj1 (proj2 (load_failures_exit_1
                           (env_of (inl "No columns to parse from file") None) args_sample)));
      reflexivity.
Defined.

(** ** Saving *)

Lemma run_loaded (env : Env) (args : Namespace) (df : DataFrame) :
  read_csv env (input args) = inr df -> len df <> 0%nat ->
  run env args =
    (st_out (fst (after_load env args (mkState df [] [loading_line args; loaded_line df]))),
     terminated (snd (after_load env args (mkState df [] [loading_line args; loaded_line df])))).
Proof.
  intros Hr Hl. unfold run. rewrite Hr.
  destruct (Nat.eqb_spec (len df) 0) as [E | _]; [contradiction |].
  destruct (after_load env args _); reflexivity.
Qed.

Ltac clean_results :=
  repeat match goal with
         | H : Ok _ = Raise _ |- _ => discriminate H
         | H : Raise _ = Ok _ |- _ => discriminate H
         | H : Ok _ = Ok _ |- _ => inversion H; subst; clear H
         | H : Raise _ = Raise _ |- _ => inversion H; subst; clear H
         end.

Ltac run_summary :=
  cbv beta iota zeta delta
    [summary_report summary_statistics bind print emit col get_df lift ret
     fst snd st_df st_out st_fig];
  repeat match goal with
         | |- context [match ?r with Ok _ => _ | Raise _ => _ end] =>
             destruct r eqn:?; clean_results;
             cbv beta iota zeta delta
               [bind print emit col get_df lift ret fst snd st_df st_out st_fig]
         end.

(** Every event of a summary is one of its lines, with the values computed
    from the frame as the script computes them. *)
Lemma summary_report_lines (df : DataFrame) (ev : event) :
  In ev (fst (summary_report df)) -> summary_line df ev.
Proof.
  run_summary.
  all: cbn [app In]; intro H.
  all: repeat match type of H with _ \/ _ => destruct H as [H | H] end.
  all: try contradiction.
  all: subst ev.
  all: try (econstructor; eassumption).
Qed.

(** ** Statements determined by the frame *)

Lemma fd_ret {A : Type} (a : A) : frame_determined (ret a).
Proof.
  intros s1 s2 H. simpl. repeat split; auto.
  exists []. now rewrite !app_nil_r.
Qed.

Lemma fd_lift {A : Type} (r : result A) : frame_determined (lift r).
Proof.
  intros s1 s2 H. destruct r; simpl; repeat split; auto;
    exists []; now rewrite !app_nil_r.
Qed.

Lemma fd_get_df : frame_determined get_df.
Proof.
  intros s1 s2 H. simpl. repeat split; auto.
  - now rewrite H.
  - exists []. now rewrite !app_nil_r.
Qed.

Lemma fd_emit (e : event) : frame_determined (emit e).
Proof.
  intros s1 s2 H. simpl. repeat split; auto.
  exists [e]. split; reflexivity.
Qed.

Lemma fd_bind {A B : Type} (m : M A) (k : A -> M B) :
  frame_determined m -> (forall a, frame_determined (k a)) ->
  frame_determined (bind m k).
Proof.
  intros Hm Hk s1 s2 H. unfold bind.
  destruct (Hm s1 s2 H) as (Hr & Hd & out & H1 & H2).
  destruct (m s1) as [s1' r1], (m s2) as [s2' r2]; simpl in *.
  subst r2. destruct r1 as [a | x].
  - destruct (Hk a s1' s2' Hd) as (Hr' & Hd' & out' & H1' & H2').
    repeat split; auto.
    exists (out ++ out')%list.
    rewrite H1', H2', H1, H2, !app_assoc. split; reflexivity.
  - simpl. repeat split; auto. exists out. split; assumption.
Qed.

Lemma fd_col (c : string) : frame_determined (col c).
Proof. apply fd_bind; [apply fd_get_df | intro; apply fd_lift]. Qed.

Lemma summary_statistics_fd : frame_determined summary_statistics.
Proof.
  unfold summary_statistics, print.
  repeat first
    [ apply fd_bind; [| intro]
    | apply fd_col | apply fd_lift | apply fd_get_df | apply fd_emit | apply fd_ret ].
Qed.

(** From any state, the summary appends the report of the frame it holds. *)
Lemma summary_statistics_report (s : State) :
  st_out (fst (summary_statistics s)) = (st_out s ++ fst (summary_report (st_df s)))%list /\
  snd (summary_statistics s) = snd (summary_report (st_df s)).
Proof.
  destruct (summary_statistics_fd s (mkState (st_df s) [] []) eq_refl)
    as (Hr & _ & out & H1 & H2).
  unfold summary_report.
  destruct (summary_statistics (mkState (st_df s) [] [])) as [s0 r0]; simpl in *.
  subst out. split; assumption.
Qed.

Lemma after_load_split (env : Env) (args : Namespace) (s : State) :
  after_load env args s = (before_summary env args ;; summary_statistics) s.
Proof.
  unfold after_load, before_summary, bind.
  destruct (compose_chart env s) as [s1 [[] | x]]; [| reflexivity].
  destruct (save_figure env args s1) as [s2 [[] | x]]; [| reflexivity].
  destruct (display args s2) as [s3 [[] | x]]; reflexivity.
Qed.

Lemma run_reaching_summary (env : Env) (args : Namespace) (df : DataFrame) (s : State) :
  read_csv env (input args) = inr df -> len df <> 0%nat ->
  before_summary env args (mkState df [] [loading_line args; loaded_line df]) = (s, Done tt) ->
  run env args = ((st_out s ++ fst (summary_report df))%list,
                  terminated (snd (summary_report df))).
Proof.
  intros Hr Hl Hb.
  assert (Hdf : st_df s = df).
  { assert (K : keeps st_df (before_summary env args)).
    { unfold before_summary.
      apply keeps_bind; [apply compose_chart_keeps_df | intro].
      apply keeps_bind; [apply save_figure_keeps_df | intro].
      apply display_keeps_df. }
    specialize (K (mkState df [] [loading_line args; loaded_line df])).
    rewrite Hb in K. exact K. }
  rewrite (run_loaded env args df Hr Hl), after_load_split.
  unfold bind at 1 2. rewrite Hb.
  destruct (summary_statistics_report s) as [Ho Hs].
  rewrite Ho, Hs, Hdf. reflexivity.
Qed.

(** C8: the summary is a function of the loaded table.  Two runs, whatever
    their arguments, file system and save outcome, that load equal tables and
    reach the summary print the same summary events after whatever each
    printed before, namely the report of that table, and end the same way. *)
Theorem summary_deterministic (env1 env2 : Env) (args1 args2 : Namespace)
        (df : DataFrame) (s1 s2 : State) :
  read_csv env1 (input args1) = inr df ->
  read_csv env2 (input args2) = inr df ->
  len df <> 0%nat ->
  before_summary env1 args1 (mkState df [] [loading_line args1; loaded_line df]) = (s1, Done tt) ->
  before_summary env2 args2 (mkState df [] [loading_line args2; loaded_line df]) = (s2, Done tt) ->
  fst (run env1 args1) = (st_out s1 ++ fst (summary_report df))%list /\
  fst (run env2 args2) = (st_out s2 ++ fst (summary_report df))%list /\
  snd (run env1 args1) = snd (run env2 args2).
Proof.
  intros H1 H2 Hl B1 B2.
  rewrite (run_reaching_summary env1 args1 df s1 H1 Hl B1).
  rewrite (run_reaching_summary env2 args2 df s2 H2 Hl B2).
  repeat split.
Qed.

Lemma summary_deterministic_witness :
  fst (run (env_of (inr df_sample) None) args_sample)
    = (st_out (fst (before_summary (env_of (inr df_sample) None) args_sample
                      (state_loaded args_sample df_sample)))
       ++ fst (summary_report df_sample))%list /\
  fst (run (env_of (inr df_sample) None) args_other)
    = (st_out (fst (before_summary (env_of (inr df_sample) None) args_other
                      (state_loaded args_other df_sample)))
       ++ fst (summary_report df_sample))%list /\
  snd (run (env_of (inr df_sample) None) args_sample)
    = snd (run (env_of (inr df_sample) None) args_other).
Proof.
  apply (summary_deterministic
           (env_of (inr df_sample) None) (env_of (inr df_sample) None)
           args_sample args_other df_sample).
  - reflexivity.
  - reflexivity.
  - discriminate.
  - vm_compute. reflexivity.
  - vm_compute. reflexivity.
Defined.

(** ** A failed save ends the run *)

Lemma not_summary_line_of_load (df : DataFrame) (args : Namespace) (e : string) (ev : event) :
  In ev [loading_line args; loaded_line df; saving_line args; save_error_line e] ->
  ~ summary_line df ev.
Proof.
  unfold loading_line, loaded_line, saving_line, save_error_line.
  intros Hin Hs.
  simpl in Hin.
  repeat match type of Hin with _ \/ _ => destruct Hin as [Hin | Hin] end;
    try contradiction; subst ev; inversion Hs.
Qed.

Lemma save_figure_fails (env : Env) (args : Namespace) (s : State) (e : string) :
  savefig env (output args) (format args) (dpi args) (st_fig s) = Some e ->
  save_figure env args s
    = (mkState (st_df s) (st_fig s) (st_out s ++ [saving_line args; save_error_line e])%list,
       Stop (SysExit 1)).
Proof.
  intro Hs. unfold save_figure, print, emit, get_fig, sys_exit, bind. simpl.
  rewrite Hs. simpl. rewrite <- app_assoc. reflexivity.
Qed.

(** C10: when [savefig] raises, the run prints the error and exits with
    status 1; its whole trace is the two loading lines, the saving line and
    the error line: no viewer is opened and no event of the summary report
    occurs in it. *)
Theorem save_failure_ends_run (env : Env) (args : Namespace) (df : DataFrame)
        (s1 : State) (e : string) :
  read_csv env (input args) = inr df ->
  len df <> 0%nat ->
  compose_chart env (state_loaded args df) = (s1, Done tt) ->
  savefig env (output args) (format args) (dpi args) (st_fig s1) = Some e ->
  run env args
    = ([loading_line args; loaded_line df; saving_line args; save_error_line e], Exit 1) /\
  (forall fig, ~ In (Shown fig) (fst (run env args))) /\
  (forall ev, In ev (fst (summary_report df)) -> ~ In ev (fst (run env args))).
Proof.
  intros Hr Hl Hc Hs.
  assert (Ho : st_out s1 = [loading_line args; loaded_line df]).
  { assert (K := compose_chart_keeps_out env (state_loaded args df)).
    rewrite Hc in K. exact K. }
  assert (Hrun : run env args
    = ([loading_line args; loaded_line df; saving_line args; save_error_line e], Exit 1)).
  { rewrite (run_loaded env args df Hr Hl).
    fold (state_loaded args df).
    assert (Ha : after_load env args (state_loaded args df)
                 = (mkState (st_df s1) (st_fig s1)
                            (st_out s1 ++ [saving_line args; save_error_line e])%list,
                    Stop (SysExit 1))).
    { unfold after_load. unfold bind at 1. rewrite Hc.
      unfold bind at 1. rewrite (save_figure_fails env args s1 e Hs). reflexivity. }
    rewrite Ha, Ho. reflexivity. }
  rewrite Hrun. simpl fst. repeat split.
  - intros fig Hin. simpl in Hin.
    unfold loading_line, loaded_line, saving_line, save_error_line in Hin.
    intuition discriminate.
  - intros ev Hin Hin'.
    apply (not_summary_line_of_load df args e ev Hin').
    apply summary_report_lines. exact Hin.
Qed.

Lemma save_failure_ends_run_witness :
  run (env_of (inr df_sample) (Some "disk full")) args_other
    = ([loading_line args_other; loaded_line df_sample; saving_line args_other;
        save_error_line "disk full"], Exit 1).
Proof.
  apply (save_failure_ends_run (env_of (inr df_sample) (Some "disk full")) args_other
           df_sample (fst (compose_chart (env_of (inr df_sample) (Some "disk full"))
                             (state_loaded args_other df_sample)))
           "disk full").
  - reflexivity.
  - discriminate.
  - vm_compute. reflexivity.
  - reflexivity.
Defined.

(** ** Reductions over a numeric column *)

Lemma present_In {A : Type} (l : list (option A)) (x : A) :
  In x (present l) <-> In (Some x) l.
Proof.
  induction l as [| [a |] l IH]; simpl.
  - tauto.
  - rewrite IH. split; intros [H | H]; auto; left; congruence.
  - rewrite IH. split; [auto | intros [H | H]; [discriminate | exact H]].
Qed.

Lemma Qmax_b_ge_l (a b : Q) : (a <= Qmax_b a b)%Q.
Proof.
  unfold Qmax_b. destruct (Qle_bool a b) eqn:E.
  - now apply Qle_bool_iff.
  - apply Qle_refl.
Qed.

Lemma Qmax_b_ge_r (a b : Q) : (b <= Qmax_b a b)%Q.
Proof.
  unfold Qmax_b. destruct (Qle_bool a b) eqn:E.
  - apply Qle_refl.
  - apply Qlt_le_weak, Qnot_le_lt. intro H.
    apply Qle_bool_iff in H. congruence.
Qed.

Lemma Qmax_b_cases (a b : Q) : Qmax_b a b = a \/ Qmax_b a b = b.
Proof. unfold Qmax_b. destruct (Qle_bool a b); auto. Qed.

Lemma fold_Qmax_b (l : list Q) (x : Q) :
  In (fold_left Qmax_b l x) (x :: l) /\
  forall y, In y (x :: l) -> (y <= fold_left Qmax_b l x)%Q.
Proof.
  revert x. induction l as [| a l IH]; intro x; simpl.
  - split; [auto |]. intros y [<- | []]. apply Qle_refl.
  - destruct (IH (Qmax_b x a)) as [Hin Hge]. split.
    + destruct Hin as [Hin | Hin]; [| auto].
      destruct (Qmax_b_cases x a) as [E | E]; [left | right; left]; congruence.
    + intros y [<- | [<- | Hy]].
      * eapply Qle_trans; [apply Qmax_b_ge_l | apply Hge; left; reflexivity].
      * eapply Qle_trans; [apply Qmax_b_ge_r | apply Hge; left; reflexivity].
      * apply Hge. right. exact Hy.
Qed.

(** [max()] of a numeric column is its greatest present cell. *)
Lemma series_max_greatest (l : list (option Q)) (m : scalar) :
  series_max (Float64 l) = Ok m -> greatest l m.
Proof.
  simpl. intro H. injection H as <-.
  unfold reduce. destruct (present l) as [| x xs] eqn:E; simpl.
  - intros y Hy. apply present_In in Hy. rewrite E in Hy. exact Hy.
  - destruct (fold_Qmax_b xs x) as [Hin Hge]. rewrite <- E in Hin, Hge. split.
    + now apply present_In.
    + intros y Hy. apply Hge. now apply present_In.
Qed.





(** Flags are exactly summable: integers whose magnitudes add up to no more
    than the number of rows. *)





(** ** Distinct values in order of appearance *)

Lemma mem_In (x : string) (l : list string) : PyStr.mem x l = true <-> In x l.
Proof.
  unfold PyStr.mem. rewrite existsb_exists. split.
  - intros (y & Hy & E). apply String.eqb_eq in E. now subst.
  - intro H. exists x. split; [exact H | apply String.eqb_refl].
Qed.

Lemma mem_not_In (x : string) (l : list string) : PyStr.mem x l = false <-> ~ In x l.
Proof.
  rewrite <- mem_In. destruct (PyStr.mem x l); split; congruence.
Qed.

Lemma seen_strings (u : string) (seen : list string) :
  existsb (same_key (SStr u)) (map SStr seen) = PyStr.mem u seen.
Proof.
  unfold PyStr.mem. induction seen as [| y seen IH]; simpl; [reflexivity |].
  now rewrite IH.
Qed.

Lemma seen_as_string (x : scalar) (seen : list string) :
  existsb (same_key x) (map SStr seen) = true -> exists y, x = SStr y /\ In y seen.
Proof.
  induction seen as [| y seen IH]; simpl; [discriminate |].
  intro H. apply orb_true_iff in H. destruct H as [H | H].
  - destruct x as [q | s |]; simpl in H; try discriminate.
    apply String.eqb_eq in H. subst. exists y. auto.
  - destruct (IH H) as (z & -> & Hz). exists z. auto.
Qed.

Lemma strings_of_ok (l : list scalar) (r : list string) :
  strings_of l = Ok r -> l = map SStr r.
Proof.
  revert r. induction l as [| x l IH]; intros r H; simpl in H.
  - injection H as <-. reflexivity.
  - destruct x as [q | s |]; try discriminate.
    destruct (strings_of l) as [r' | e]; [| discriminate].
    injection H as <-. simpl. now rewrite (IH r' eq_refl).
Qed.

(** When [unique] yields only strings, the column holds only strings and the
    result lists their first occurrences. *)
Lemma unique_from_strings (l : list scalar) :
  forall (seen prev us : list string),
    (forall x, In x prev <-> In x seen) ->
    unique_from (map SStr seen) l = map SStr us ->
    exists rows, l = map SStr rows /\ us = first_occurrences prev rows.
Proof.
  induction l as [| x l IH]; intros seen prev us Heq H; simpl in H.
  - destruct us; [| discriminate]. exists []. split; reflexivity.
  - destruct (existsb (same_key x) (map SStr seen)) eqn:E.
    + destruct (seen_as_string x seen E) as (y & -> & Hy).
      destruct (IH seen (prev ++ [y])%list us) as (rows & -> & ->); [| exact H |].
      * intro z. rewrite in_app_iff, Heq. simpl. intuition (subst; auto).
      * exists (y :: rows). split; [reflexivity |]. simpl.
        assert (M : PyStr.mem y prev = true) by (apply mem_In, Heq, Hy).
        now rewrite M.
    + destruct us as [| u us]; [discriminate |].
      simpl in H. injection H as -> H.
      destruct (IH (u :: seen) (prev ++ [u])%list us) as (rows & -> & ->); [| exact H |].
      * intro z. rewrite in_app_iff, Heq. simpl. intuition (subst; auto).
      * exists (u :: rows). split; [reflexivity |]. simpl.
        rewrite seen_strings in E.
        assert (M : PyStr.mem u prev = false).
        { apply mem_not_In. rewrite Heq. now apply mem_not_In. }
        now rewrite M.
Qed.

Lemma first_occurrences_spec (rows : list string) :
  forall prev,
    NoDup (first_occurrences prev rows) /\
    forall x, In x (first_occurrences prev rows) <-> In x rows /\ ~ In x prev.
Proof.
  induction rows as [| z rest IH]; intro prev; simpl.
  - split; [constructor | tauto].
  - destruct (IH (prev ++ [z])%list) as [Hnd Hin].
    destruct (PyStr.mem z prev) eqn:M.
    + apply mem_In in M. split; [exact Hnd |].
      intro x. rewrite Hin, in_app_iff. simpl.
      destruct (string_dec z x) as [-> | Hne]; intuition congruence.
    + apply mem_not_In in M. split.
      * constructor; [| exact Hnd].
        rewrite Hin, in_app_iff. simpl. tauto.
      * intro x. simpl. rewrite Hin, in_app_iff. simpl.
        destruct (string_dec z x) as [-> | Hne]; intuition congruence.
Qed.

(** ** The summary of a conforming frame *)

Lemma format_num (prec : nat) (o : option Q) :
  format_f prec (num_cell o) = Ok (Fixed prec o).
Proof. destruct o; reflexivity. Qed.

Lemma format_mean (prec : nat) (d : bool) (l : list (option Q)) :
  format_c prec (demote d (mean_of l)) = Ok (fixed_of prec (demote d (mean_of l))).
Proof. unfold mean_of. destruct (mean_present l), d; reflexivity. Qed.

Lemma format_max (prec : nat) (d : bool) (o : option Q) :
  format_c prec (demote d (Exact (num_cell o)))
    = Ok (fixed_of prec (demote d (Exact (num_cell o)))).
Proof. destruct o, d; reflexivity. Qed.

Lemma true_div_num (o : option Q) (n : nat) :
  true_div (num_cell o) n = Ok (num_cell (quotient o n)).
Proof. destruct o; reflexivity. Qed.

Lemma values_text (l : list (option string)) :
  has_missing l = false -> values (Object l) = map SStr (present l).
Proof.
  simpl. induction l as [| [x |] l IH]; simpl; intro H.
  - reflexivity.
  - now rewrite IH.
  - discriminate H.
Qed.

Lemma unique_strings (rows : list string) :
  forall seen prev, (forall x, In x prev <-> In x seen) ->
    unique_from (map SStr seen) (map SStr rows) = map SStr (first_occurrences prev rows).
Proof.
  induction rows as [| z rows IH]; intros seen prev Heq; simpl; [reflexivity |].
  rewrite seen_strings.
  destruct (PyStr.mem z seen) eqn:M.
  - assert (M' : PyStr.mem z prev = true) by (apply mem_In, Heq, mem_In, M).
    rewrite M'. apply IH. intro x. rewrite in_app_iff, Heq. simpl.
    apply mem_In in M. intuition (subst; auto).
  - assert (M' : PyStr.mem z prev = false).
    { apply mem_not_In. rewrite Heq. now apply mem_not_In. }
    rewrite M'. simpl. f_equal.
    apply (IH (z :: seen) (prev ++ [z])%list).
    intro x. rewrite in_app_iff, Heq. simpl. intuition (subst; auto).
Qed.

Lemma strings_of_map (us : list string) : strings_of (map SStr us) = Ok us.
Proof. induction us as [| u us IH]; simpl; [reflexivity | now rewrite IH]. Qed.

(** Joining the distinct values of a text column. *)
Lemma join_text (sep : string) (l : list (option string)) :
  has_missing l = false ->
  join_scalars sep (unique (Object l))
    = Ok (PyStr.join sep (first_occurrences [] (present l))).
Proof.
  intro H. unfold join_scalars, unique. rewrite (values_text l H).
  pose proof (unique_strings (present l) [] []) as U. simpl in U.
  rewrite U by tauto.
  now rewrite strings_of_map.
Qed.

Lemma numeric_column (df : DataFrame) (c : string) :
  column_is df c is_numeric = true -> exists l, getitem df c = Ok (Float64 l).
Proof.
  unfold column_is, getitem. destruct (lookup c (columns df)) as [[l | l] |];
    try discriminate. eauto.
Qed.

Lemma text_column (df : DataFrame) (c : string) :
  column_is df c is_text = true ->
  exists l, getitem df c = Ok (Object l) /\ has_missing l = false.
Proof.
  unfold column_is, getitem. destruct (lookup c (columns df)) as [[l | l] |];
    try discriminate.
  simpl. intro H. apply negb_true_iff in H. eauto.
Qed.

(** On a frame that follows the data model the summary runs to its end and
    prints every line. *)
Lemma summary_report_conforming (df : DataFrame) :
  conforming df = true ->
  exists ts lux cb err zc cats zones,
    getitem df "timestamp" = Ok (Float64 ts) /\
    getitem df "lux" = Ok (Float64 lux) /\
    getitem df "current_brightness" = Ok (Float64 cb) /\
    getitem df "error" = Ok (Float64 err) /\
    getitem df "zone_changed" = Ok (Float64 zc) /\
    getitem df "step_category" = Ok (Object cats) /\
    getitem df "zone" = Ok (Object zones) /\ has_missing zones = false /\
    summary_report df
      = (conforming_report (len df) ts lux cb err zc cats zones, Done tt).
Proof.
  unfold conforming. intro H.
  repeat match type of H with _ && _ = true =>
           let H' := fresh "C" in apply andb_true_iff in H; destruct H as [H H']
         end.
  destruct (numeric_column df "timestamp") as [ts Hts]; [assumption |].
  destruct (numeric_column df "lux") as [lux Hlux]; [assumption |].
  destruct (numeric_column df "current_brightness") as [cb Hcb]; [assumption |].
  destruct (numeric_column df "error") as [err Herr]; [assumption |].
  destruct (numeric_column df "zone_changed") as [zc Hzc]; [assumption |].
  destruct (text_column df "step_category") as (cats & Hcats & _); [assumption |].
  destruct (text_column df "zone") as (zones & Hzones & Hz); [assumption |].
  exists ts, lux, cb, err, zc, cats, zones.
  repeat (split; [assumption |]).
  cbv beta iota zeta delta
    [summary_report summary_statistics bind print emit col get_df lift ret
     fst snd st_df st_out st_fig].
  repeat (progress
            (rewrite ?Hts, ?Hlux, ?Hcb, ?Herr, ?Hzc, ?Hcats, ?Hzones;
             cbn [series_max series_min series_sum series_abs series_mean
                  cells determined];
             rewrite ?format_num, ?true_div_num, ?(join_text ", " zones Hz),
                     ?format_mean, ?format_max;
             cbv beta iota zeta delta
               [bind print emit col get_df lift ret fst snd st_df st_out st_fig])).
  reflexivity.
Qed.

(** ** The summary values *)



(** Outside the data model the sum is not a count: one row whose
    [zone_changed] is 2 prints 2, and no row has [zone_changed] equal to 1.
    Nor is it the exact sum on every column: two cells of 2^62 are not
    exactly summable. *)
Lemma zone_changes_not_a_count :
  well_formed df_flag2 = true /\
  In (Printed [Lit "Zone changes: "; Repr (Exact (SNum 2%Q))])
     (fst (summary_report df_flag2)) /\
  getitem df_flag2 "zone_changed" = Ok (Float64 [cell 2]) /\
  zone_change_rows (Float64 [cell 2]) = 0%nat /\
  ~ (2 == inject_Z (Z.of_nat (zone_change_rows (Float64 [cell 2]))))%Q /\
  sum_of [cell (2 ^ 62); cell (2 ^ 62)] = Machine (inject_Z (2 ^ 63)).
Proof.
  split; [reflexivity |].
  split; [vm_compute; do 9 right; left; reflexivity |].
  split; [reflexivity |]. split; [reflexivity |].
  split; [vm_compute; discriminate | vm_compute; reflexivity].
Qed.

(** C6: for a table with at least one row, the value printed as duration is
    the maximum of the [timestamp] column (its greatest present cell), and
    the value printed as update interval is that maximum divided by the
    number of rows.  On a table that follows the data model both lines are
    printed. *)
Theorem duration_and_interval (df : DataFrame) :
  len df <> 0%nat ->
  (forall d, In (Printed [Lit "Duration: "; d; Lit " seconds"]) (fst (summary_report df)) ->
     exists t m,
       getitem df "timestamp" = Ok t /\ series_max t = Ok m /\ format_f 1 m = Ok d /\
       (forall l, t = Float64 l -> greatest l m)) /\
  (forall i, In (Printed [Lit "Update interval: ~"; i; Lit " seconds"])
                (fst (summary_report df)) ->
     exists t m,
       getitem df "timestamp" = Ok t /\ series_max t = Ok m /\
       (forall l, t = Float64 l -> greatest l m) /\
       match m with
       | SNum x => i = Fixed 3 (Some (x / inject_Z (Z.of_nat (len df)))%Q)
       | SNaN => i = Fixed 3 None
       | SStr _ => False
       end) /\
  (conforming df = true ->
     exists l,
       getitem df "timestamp" = Ok (Float64 l) /\
       In (Printed [Lit "Duration: "; Fixed 1 (reduce Qmax_b (present l)); Lit " seconds"])
          (fst (summary_report df)) /\
       In (Printed [Lit "Update interval: ~";
                    Fixed 3 (quotient (reduce Qmax_b (present l)) (len df)); Lit " seconds"])
          (fst (summary_report df))).
Proof.
  intro Hl. split; [| split].
  - intros d Hin. apply summary_report_lines in Hin.
    inversion Hin as [ | | | | t m d' Hg Hm Hf | | | | | | | | | ]; subst.
    exists t, m. repeat split; auto.
    intros l ->. now apply series_max_greatest.
  - intros i Hin. apply summary_report_lines in Hin.
    inversion Hin as [ | | | | | t m q i' Hg Hm Hd Hf | | | | | | | | ]; subst.
    exists t, m. repeat split; auto.
    + intros l ->. now apply series_max_greatest.
    + destruct m as [x | s |]; simpl in Hd.
      * destruct (len df) as [| k] eqn:E; [contradiction |].
        injection Hd as <-. simpl in Hf. now injection Hf as <-.
      * discriminate Hd.
      * injection Hd as <-. simpl in Hf. now injection Hf as <-.
  - intro Hc.
    destruct (summary_report_conforming df Hc)
      as (ts & lux & cb & err & zc & cats & zones & Hts & _ & _ & _ & _ & _ & _ & _ & Hr).
    exists ts. split; [exact Hts |]. rewrite Hr. simpl. split; auto 12.
Qed.

Lemma duration_and_interval_witness :
  (exists t m,
     getitem df_sample "timestamp" = Ok t /\ series_max t = Ok m /\
     format_f 1 m = Ok (Fixed 1 (Some 2%Q)) /\
     (forall l, t = Float64 l -> greatest l m)) /\
  (exists t m,
     getitem df_sample "timestamp" = Ok t /\ series_max t = Ok m /\
     (forall l, t = Float64 l -> greatest l m) /\
     match m with
     | SNum x => Fixed 3 (Some (2 # 3)%Q) = Fixed 3 (Some (x / inject_Z (Z.of_nat (len df_sample)))%Q)
     | SNaN => Fixed 3 (Some (2 # 3)%Q) = Fixed 3 None
     | SStr _ => False
     end) /\
  (exists l,
     getitem df_sample "timestamp" = Ok (Float64 l) /\
     In (Printed [Lit "Duration: "; Fixed 1 (reduce Qmax_b (present l)); Lit " seconds"])
        (fst (summary_report df_sample)) /\
     In (Printed [Lit "Update interval: ~";
                  Fixed 3 (quotient (reduce Qmax_b (present l)) (len df_sample));
                  Lit " seconds"])
        (fst (summary_report df_sample))).
Proof.
  assert (Hl : len df_sample <> 0%nat) by discriminate.
  split; [| split].
  - apply (proj1 (duration_and_interval df_sample Hl) (Fixed 1 (Some 2%Q))).
    vm_compute. do 4 right. left. reflexivity.
  - apply (proj1 (proj2 (duration_and_interval df_sample Hl)) (Fixed 3 (Some (2 # 3)%Q))).
    vm_compute. do 5 right. left. reflexivity.
  - apply (proj2 (proj2 (duration_and_interval df_sample Hl))). reflexivity.
Defined.

(** C5: the text printed after "Zones visited:" joins, with a comma and a
    space, the first occurrences of the zone values in row order: each
    distinct zone of the table is listed, exactly once.  On a table that
    follows the data model the line is printed. *)
Theorem zones_visited_in_encounter_order (df : DataFrame) :
  (forall text,
     In (Printed [Lit ("Zones visited: " ++ text)]) (fst (summary_report df)) ->
     exists z rows,
       getitem df "zone" = Ok z /\
       values z = map SStr rows /\
       text = PyStr.join ", " (first_occurrences [] rows) /\
       NoDup (first_occurrences [] rows) /\
       (forall x, In x (first_occurrences [] rows) <-> In x rows)) /\
  (conforming df = true ->
     exists l,
       getitem df "zone" = Ok (Object l) /\
       In (Printed [Lit ("Zones visited: "
                         ++ PyStr.join ", " (first_occurrences [] (present l)))])
          (fst (summary_report df))).
Proof.
  split.
  - intros text Hin. apply summary_report_lines in Hin.
    inversion Hin as [ | | | | | | | | z zs Hg Hj E | | | | | ]; subst.
    unfold join_scalars in Hj.
    destruct (strings_of (unique z)) as [us | e] eqn:Hs; [| discriminate].
    injection Hj as <-.
    apply strings_of_ok in Hs.
    destruct (unique_from_strings (values z) [] [] us) as (rows & Hv & ->).
    + tauto.
    + exact Hs.
    + exists z, rows. destruct (first_occurrences_spec rows []) as [Hnd Hi].
      repeat split; auto.
      * intro H. now apply Hi.
      * intro H. apply Hi. split; [exact H | intros []].
  - intro Hc.
    destruct (summary_report_conforming df Hc)
      as (ts & lux & cb & err & zc & cats & zones & _ & _ & _ & _ & _ & _ & Hz & _ & Hr).
    exists zones. split; [exact Hz |]. rewrite Hr. simpl. auto 12.
Qed.

Lemma zones_visited_in_encounter_order_witness :
  (exists z rows,
     getitem df_sample "zone" = Ok z /\
     values z = map SStr rows /\
     "indoor, outdoor" = PyStr.join ", " (first_occurrences [] rows) /\
     NoDup (first_occurrences [] rows) /\
     (forall x, In x (first_occurrences [] rows) <-> In x rows)) /\
  (exists l,
     getitem df_sample "zone" = Ok (Object l) /\
     In (Printed [Lit ("Zones visited: "
                       ++ PyStr.join ", " (first_occurrences [] (present l)))])
        (fst (summary_report df_sample))).
Proof.
  split.
  - apply (proj1 (zones_visited_in_encounter_order df_sample) "indoor, outdoor").
    vm_compute. do 8 right. left. reflexivity.
  - apply (proj2 (zones_visited_in_encounter_order df_sample)). reflexivity.
Defined.

(** ** A missing column surfaces while charting *)

Lemma has_column_getitem (df : DataFrame) (c : string) :
  has_column df c = true -> exists t, getitem df c = Ok t.
Proof.
  unfold has_column, getitem. destruct (lookup c (columns df)); [eauto | discriminate].
Qed.

Lemma no_column_getitem (df : DataFrame) (c : string) :
  has_column df c = false -> getitem df c = Raise (KeyError c).
Proof.
  unfold has_column, getitem. destruct (lookup c (columns df)); [discriminate | auto].
Qed.

Lemma has_column_mask (df : DataFrame) (mask : list bool) (c : string) :
  has_column (getitem_mask df mask) c = has_column df c.
Proof.
  unfold has_column, getitem_mask. simpl.
  induction (columns df) as [| [k v] l IH]; simpl; [reflexivity |].
  destruct (String.eqb c k); [reflexivity | exact IH].
Qed.

Section OnFrame.

Variable env : Env.
Variable df : DataFrame.

Lemma kf_here {A B : Type} (c : string) (m : M A) (k : A -> M B) :
  key_fails env df c m -> key_fails env df c (bind m k).
Proof.
  intros Hm s Hs. unfold bind. destruct (Hm s Hs) as [(e & Hr & He) Ho].
  destruct (m s) as [s' r]; simpl in *. subst r. simpl. eauto.
Qed.

Lemma kf_later {A B : Type} (c : string) (m : M A) (k : A -> M B) :
  quiet_ok env df m -> (forall a, key_fails env df c (k a)) -> key_fails env df c (bind m k).
Proof.
  intros Hm Hk s Hs. unfold bind.
  destruct (Hm s Hs) as ([(a & Hr) | (e & Hr & He)] & Hd & Ho);
    destruct (m s) as [s' r]; simpl in *; subst r.
  - destruct (Hk a s' Hd) as [Hr' Ho']. split; [exact Hr' | congruence].
  - simpl. eauto.
Qed.

Lemma qo_bind {A B : Type} (m : M A) (k : A -> M B) :
  quiet_ok env df m -> (forall a, quiet_ok env df (k a)) -> quiet_ok env df (bind m k).
Proof.
  intros Hm Hk s Hs. unfold bind.
  destruct (Hm s Hs) as ([(a & Hr) | (e & Hr & He)] & Hd & Ho);
    destruct (m s) as [s' r]; simpl in *; subst r.
  - destruct (Hk a s' Hd) as (Hr' & Hd' & Ho'). repeat split; auto. congruence.
  - simpl. eauto 6.
Qed.

(** Reading the global hands out the frame itself. *)
Lemma qo_get_df_bind {B : Type} (k : DataFrame -> M B) :
  quiet_ok env df (k df) -> quiet_ok env df (bind get_df k).
Proof. intros Hk s Hs. unfold bind, get_df. rewrite Hs. now apply Hk. Qed.

Lemma qo_ret {A : Type} (a : A) : quiet_ok env df (ret a).
Proof. intros s Hs. simpl. eauto. Qed.

Lemma qo_draw (ax : axis) (a : artist) : quiet_ok env df (draw env ax a).
Proof.
  intros s Hs. unfold draw.
  destruct (draw_error env (st_fig s) ax a) as [e |] eqn:E; simpl.
  - split; [right; exists e; split; [reflexivity | left; now exists (st_fig s), ax, a]
           | auto].
  - eauto.
Qed.

Lemma qo_subplots : quiet_ok env df (subplots env).
Proof.
  intros s Hs. unfold subplots. destruct (subplots_error env) as [e |] eqn:E; simpl.
  - split; [right; exists e; split; [reflexivity | right; exact E] | auto].
  - eauto.
Qed.

Lemma qo_lift {A : Type} (r : result A) (a : A) : r = Ok a -> quiet_ok env df (lift r).
Proof. intros -> s Hs. simpl. eauto. Qed.

Lemma qo_col (c : string) : has_column df c = true -> quiet_ok env df (col c).
Proof.
  intro H. unfold col. apply qo_get_df_bind.
  destruct (has_column_getitem df c H) as [t Ht]. exact (qo_lift _ t Ht).
Qed.

Lemma kf_col (c : string) : has_column df c = false -> key_fails env df c (col c).
Proof.
  intros H s Hs. unfold col, bind, get_df, lift. rewrite Hs.
  rewrite (no_column_getitem df c H). simpl. eauto.
Qed.

Lemma qo_for_each {A : Type} (l : list A) (body : A -> M unit) :
  (forall x, quiet_ok env df (body x)) -> quiet_ok env df (for_each l body).
Proof.
  intro Hb. induction l as [| x l IH]; simpl.
  - apply qo_ret.
  - apply qo_bind; [apply Hb | intros _; exact IH].
Qed.

Lemma qo_scatter_values ax c colors vs :
  has_column df c = true -> has_column df "timestamp" = true ->
  quiet_ok env df (scatter_values env ax c colors vs).
Proof.
  intros Hc Ht. unfold scatter_values. apply qo_for_each. intro v.
  apply qo_bind; [now apply qo_col | intro t].
  apply qo_get_df_bind.
  assert (Hd : exists x, getitem (getitem_mask df (eq_mask t v)) "timestamp" = Ok x).
  { apply has_column_getitem. now rewrite has_column_mask. }
  destruct Hd as [x Hx].
  apply qo_bind; [apply (qo_lift _ x Hx) | intro; apply qo_draw].
Qed.

(** *** Statements that never leave through [sys.exit] *)

Lemma or_bind {A B : Type} (m : M A) (k : A -> M B) :
  orderly df m -> (forall a, orderly df (k a)) -> orderly df (bind m k).
Proof.
  intros Hm Hk s Hs. unfold bind.
  destruct (Hm s Hs) as (Hd & [(a & Hr) | (e & Hr)]);
    destruct (m s) as [s' r]; simpl in *; subst r.
  - exact (Hk a s' Hd).
  - simpl. eauto.
Qed.

Lemma or_ret {A : Type} (a : A) : orderly df (ret a).
Proof. intros s Hs. simpl. eauto. Qed.

Lemma or_get_df : orderly df get_df.
Proof. intros s Hs. simpl. eauto. Qed.

Lemma or_lift {A : Type} (r : result A) : orderly df (lift r).
Proof. intros s Hs. destruct r; simpl; eauto. Qed.

Lemma or_col (c : string) : orderly df (col c).
Proof. apply or_bind; [apply or_get_df | intro; apply or_lift]. Qed.

Lemma or_subplots : orderly df (subplots env).
Proof.
  intros s Hs. unfold subplots. destruct (subplots_error env); simpl; eauto.
Qed.

Lemma or_draw (ax : axis) (a : artist) : orderly df (draw env ax a).
Proof.
  intros s Hs. unfold draw. destruct (draw_error env (st_fig s) ax a); simpl; eauto.
Qed.

Lemma or_tight_layout : orderly df (tight_layout env).
Proof.
  intros s Hs. unfold tight_layout. destruct (layout_error env (st_fig s)); simpl; eauto.
Qed.

Lemma or_for_each {A : Type} (l : list A) (body : A -> M unit) :
  (forall x, orderly df (body x)) -> orderly df (for_each l body).
Proof.
  intro Hb. induction l as [| x l IH]; simpl.
  - apply or_ret.
  - apply or_bind; [apply Hb | intros _; exact IH].
Qed.

Lemma compose_chart_orderly : orderly df (compose_chart env).
Proof.
  unfold compose_chart, scatter_values.
  repeat first
    [ apply or_bind; [| intro]
    | apply or_col | apply or_get_df | apply or_lift | apply or_subplots
    | apply or_draw | apply or_tight_layout | apply or_ret
    | apply or_for_each; intro ].
Qed.

End OnFrame.

Ltac chart_step :=
  first
    [ apply kf_here; apply kf_col; assumption
    | apply kf_later;
      [ first [ apply qo_col; assumption
              | apply qo_draw
              | apply qo_subplots
              | apply qo_scatter_values; assumption ]
      | intro ] ].

(** Chart composition reads the nine columns in the order of
    [required_columns]; the first one that is absent raises. *)
Lemma compose_chart_key_fails (env : Env) (df : DataFrame) (c : string) :
  first_missing df = Some c -> key_fails env df c (compose_chart env).
Proof.
  unfold first_missing. simpl.
  repeat match goal with
         | |- context [has_column df ?col] =>
             destruct (has_column df col) eqn:?; simpl
         end.
  all: intro H; try discriminate H; injection H as <-.
  all: unfold compose_chart; repeat chart_step.
Qed.





(** The exception need not be the [KeyError]: when the [lux] column is text
    with a gap and [zone_changed] is absent, the first curve is refused with a
    [TypeError] and the absent column is never read. *)
Lemma plot_error_before_missing_column :
  well_formed df_text_lux = true /\
  first_missing df_text_lux = Some "zone_changed" /\
  run (env_strict (inr df_text_lux)) args_sample
    = ([loading_line args_sample; loaded_line df_text_lux],
       Traceback (TypeError "'value' must be an instance of str or bytes, not a float")).
Proof.
  split; [reflexivity |]. split; reflexivity.
Qed.

(** ** Strings *)

Lemma length_app (a b : string) :
  String.length (a ++ b) = (String.length a + String.length b)%nat.
Proof. induction a as [| x a IH]; simpl; [reflexivity | now rewrite IH]. Qed.

Lemma length_drop (n : nat) (s : string) :
  String.length (PyStr.drop n s) = (String.length s - n)%nat.
Proof.
  revert s. induction n as [| n IH]; intro s; simpl.
  - now rewrite Nat.sub_0_r.
  - destruct s as [| a s]; simpl; [reflexivity | apply IH].
Qed.

Lemma drop_app_length (a b : string) : PyStr.drop (String.length a) (a ++ b) = b.
Proof. induction a as [| x a IH]; simpl; [reflexivity | exact IH]. Qed.

Lemma take_length_nonempty (n : nat) (s : string) :
  (0 < n)%nat -> s <> EmptyString -> PyStr.take n s <> EmptyString.
Proof. destruct n, s; simpl; try lia; congruence. Qed.

Lemma contains_app (c : ascii) (a b : string) :
  PyStr.contains c (a ++ b) = PyStr.contains c a || PyStr.contains c b.
Proof.
  induction a as [| x a IH]; simpl; [reflexivity |].
  now rewrite IH, orb_assoc.
Qed.

Lemma contains_take (c : ascii) (n : nat) (s : string) :
  PyStr.contains c s = false -> PyStr.contains c (PyStr.take n s) = false.
Proof.
  revert s. induction n as [| n IH]; intros [| a s]; simpl; auto.
  intro H. apply orb_false_iff in H. destruct H as [-> H]. simpl. now apply IH.
Qed.

Lemma rfind_bounds (c : ascii) (s : string) :
  -1 <= PyStr.rfind c s < PyStr.len s.
Proof.
  unfold PyStr.len. induction s as [| a s IH]; simpl String.length; simpl PyStr.rfind.
  - lia.
  - destruct (Z.leb_spec 0 (PyStr.rfind c s)); [lia |].
    destruct (Ascii.eqb a c); lia.
Qed.

Lemma rfind_app (c : ascii) (a b : string) :
  PyStr.rfind c (a ++ b)
    = if 0 <=? PyStr.rfind c b then PyStr.len a + PyStr.rfind c b else PyStr.rfind c a.
Proof.
  unfold PyStr.len. induction a as [| x a IH].
  - simpl. destruct (Z.leb_spec 0 (PyStr.rfind c b)); [lia |].
    pose proof (rfind_bounds c b). lia.
  - simpl String.append. simpl PyStr.rfind. rewrite IH.
    destruct (Z.leb_spec 0 (PyStr.rfind c b)).
    + destruct (Z.leb_spec 0 (Z.of_nat (String.length a) + PyStr.rfind c b)); [| lia].
      simpl String.length. lia.
    + reflexivity.
Qed.

Lemma split_not_nil (sep : ascii) (s : string) : PyStr.split sep s <> [].
Proof.
  induction s as [| a s IH]; simpl; [discriminate |].
  destruct (Ascii.eqb a sep); [discriminate |].
  destruct (PyStr.split sep s); [contradiction | discriminate].
Qed.

Lemma split_parts (sep : ascii) (s : string) :
  Forall (fun x => PyStr.contains sep x = false) (PyStr.split sep s).
Proof.
  induction s as [| a s IH]; simpl.
  - repeat constructor.
  - destruct (Ascii.eqb a sep) eqn:E.
    + constructor; [reflexivity | exact IH].
    + destruct (PyStr.split sep s) as [| h t]; [repeat constructor; simpl; now rewrite E |].
      inversion IH as [| ? ? Hh Ht]; subst.
      constructor; [simpl; now rewrite E, Hh | exact Ht].
Qed.

Lemma split_single (sep : ascii) (x : string) :
  PyStr.contains sep x = false -> PyStr.split sep x = [x].
Proof.
  induction x as [| a x IH]; simpl; [reflexivity |].
  intro H. apply orb_false_iff in H. destruct H as [E H].
  rewrite E, (IH H). reflexivity.
Qed.

Lemma split_app (sep : ascii) (x r : string) :
  PyStr.contains sep x = false ->
  PyStr.split sep (x ++ String sep r) = x :: PyStr.split sep r.
Proof.
  induction x as [| a x IH]; simpl.
  - intros _. now rewrite Ascii.eqb_refl.
  - intro H. apply orb_false_iff in H. destruct H as [E H].
    rewrite E, (IH H). reflexivity.
Qed.

Lemma split_join (parts : list string) :
  parts <> [] ->
  Forall (fun x => PyStr.contains Pathlib.slash x = false) parts ->
  PyStr.split Pathlib.slash (PyStr.join "/" parts) = parts.
Proof.
  induction parts as [| x parts IH]; [congruence |].
  intros _ Hf. inversion Hf as [| ? ? Hx Hp]; subst.
  destruct parts as [| y parts].
  - simpl. now apply split_single.
  - change (PyStr.join "/" (x :: y :: parts))
      with (x ++ String Pathlib.slash (PyStr.join "/" (y :: parts))).
    rewrite (split_app _ _ _ Hx), IH; [reflexivity | discriminate | exact Hp].
Qed.

(** ** Paths *)

Lemma splitroot_root (s : string) :
  fst (Pathlib.splitroot s) = EmptyString \/
  fst (Pathlib.splitroot s) = "/" \/ fst (Pathlib.splitroot s) = "//".
Proof.
  unfold Pathlib.splitroot.
  destruct s as [| a1 [| a2 [| a3 s]]]; simpl; auto;
    repeat match goal with
           | |- context [if ?b then _ else _] => destruct b; simpl; auto
           end.
Qed.

Lemma keep_part_good (x : string) :
  Pathlib.keep_part x = true -> PyStr.contains Pathlib.slash x = false -> good_part x.
Proof.
  unfold Pathlib.keep_part, good_part. intros H Hc.
  apply andb_true_iff in H. destruct H as [H1 H2].
  apply negb_true_iff in H1, H2.
  repeat split; auto; intros ->; simpl in *; discriminate.
Qed.

Lemma good_part_keep (x : string) : good_part x -> Pathlib.keep_part x = true.
Proof.
  unfold Pathlib.keep_part, good_part. intros (H1 & H2 & _).
  apply andb_true_iff. split; apply negb_true_iff, String.eqb_neq; assumption.
Qed.

(** [Path(s)] is in normal form. *)
Lemma of_string_normal (s : string) : normal (Pathlib.of_string s).
Proof.
  unfold Pathlib.of_string, normal.
  pose proof (splitroot_root s) as Hr.
  destruct (Pathlib.splitroot s) as [r rel]. simpl in *. split; [exact Hr |].
  apply Forall_forall. intros x Hx. apply filter_In in Hx. destruct Hx as [Hx Hk].
  apply keep_part_good; [exact Hk |].
  pose proof (split_parts Pathlib.slash rel) as Hs.
  rewrite Forall_forall in Hs. now apply Hs.
Qed.

Lemma filter_good (t : list string) :
  Forall good_part t -> filter Pathlib.keep_part t = t.
Proof.
  induction 1 as [| x t Hx Ht IH]; simpl; [reflexivity |].
  now rewrite (good_part_keep x Hx), IH.
Qed.

Lemma join_head (x : string) (t : list string) :
  exists rest, PyStr.join "/" (x :: t) = x ++ rest.
Proof.
  destruct t as [| y t]; simpl.
  - exists EmptyString. clear. induction x as [| a x IH]; simpl; [reflexivity | now rewrite <- IH].
  - eexists. reflexivity.
Qed.

Lemma splitroot_join (r : string) (x : string) (t : list string) :
  (r = EmptyString \/ r = "/" \/ r = "//") -> good_part x ->
  Pathlib.splitroot (r ++ PyStr.join "/" (x :: t)) = (r, PyStr.join "/" (x :: t)).
Proof.
  intros Hr (Hne & _ & Hc).
  destruct (join_head x t) as [rest ->].
  destruct x as [| a x]; [congruence |].
  simpl in Hc. apply orb_false_iff in Hc. destruct Hc as [Ha _].
  destruct Hr as [-> | [-> | ->]]; simpl.
  - destruct (x ++ rest) as [| a2 [| a3 s]]; rewrite Ha; reflexivity.
  - destruct (x ++ rest) as [| a3 s]; simpl; rewrite Ha; reflexivity.
  - rewrite Ha. reflexivity.
Qed.

(** Printing a path with at least one component and reading it back. *)
Lemma of_string_to_string (p : Pathlib.Path) :
  normal p -> Pathlib.tail p <> [] -> Pathlib.of_string (Pathlib.to_string p) = p.
Proof.
  destruct p as [r t]. unfold normal. simpl. intros [Hr Ht] Hne.
  destruct t as [| x t]; [congruence |].
  assert (Hs : Pathlib.to_string (Pathlib.mkPath r (x :: t)) = r ++ PyStr.join "/" (x :: t)).
  { unfold Pathlib.to_string. simpl. destruct r; reflexivity. }
  rewrite Hs. unfold Pathlib.of_string.
  inversion Ht as [| ? ? Hx Ht']; subst.
  rewrite (splitroot_join r x t Hr Hx).
  rewrite split_join.
  - now rewrite (filter_good (x :: t) Ht).
  - discriminate.
  - apply Forall_forall. intros y Hy. rewrite Forall_forall in Ht.
    destruct (Ht y Hy) as (_ & _ & Hc). exact Hc.
Qed.

Lemma suffix_condition_drop (nm : string) (i : Z) :
  (0 <? i) && (i <? PyStr.len nm - 1) = true ->
  PyStr.drop (Z.to_nat i) nm <> EmptyString /\
  (String.length nm - String.length (PyStr.drop (Z.to_nat i) nm))%nat = Z.to_nat i.
Proof.
  unfold PyStr.len. intro H. apply andb_true_iff in H. destruct H as [H1 H2].
  apply Z.ltb_lt in H1, H2.
  pose proof (length_drop (Z.to_nat i) nm) as Hl.
  split; [| lia].
  intro E. rewrite E in Hl. simpl in Hl. lia.
Qed.

(** [with_suffix('.png')] replaces the extension, as [replace_extension]
    describes it. *)
Lemma with_suffix_png (p : Pathlib.Path) :
  Pathlib.name p <> EmptyString ->
  Pathlib.with_suffix p ".png" = Ok (Pathlib.replace_extension p ".png").
Proof.
  intro Hn. unfold Pathlib.with_suffix, Pathlib.replace_extension.
  change (PyStr.contains Pathlib.slash ".png") with false.
  change (negb (".png" =? EmptyString)%string && negb (String.prefix "." ".png")
          || (".png" =? ".")%string) with false.
  cbv iota.
  destruct (String.eqb_spec (Pathlib.name p) EmptyString) as [E | _]; [contradiction |].
  do 3 f_equal.
  unfold Pathlib.suffix, Pathlib.suffix_of_name, Pathlib.stem.
  destruct ((0 <? PyStr.rfind Pathlib.dot (Pathlib.name p))
            && (PyStr.rfind Pathlib.dot (Pathlib.name p) <? PyStr.len (Pathlib.name p) - 1))
    eqn:C.
  - destruct (suffix_condition_drop _ _ C) as [Hne Hlen].
    destruct (String.eqb_spec
                (PyStr.drop (Z.to_nat (PyStr.rfind Pathlib.dot (Pathlib.name p))) (Pathlib.name p))
                EmptyString) as [E | _]; [contradiction |].
    now rewrite Hlen.
  - reflexivity.
Qed.

Lemma stem_good (p : Pathlib.Path) :
  Pathlib.name p <> EmptyString ->
  PyStr.contains Pathlib.slash (Pathlib.name p) = false ->
  Pathlib.stem p <> EmptyString /\ PyStr.contains Pathlib.slash (Pathlib.stem p) = false.
Proof.
  intros Hn Hc. unfold Pathlib.stem.
  destruct ((0 <? PyStr.rfind Pathlib.dot (Pathlib.name p))
            && (PyStr.rfind Pathlib.dot (Pathlib.name p) <? PyStr.len (Pathlib.name p) - 1))
    eqn:C.
  - apply andb_true_iff in C. destruct C as [C1 _]. apply Z.ltb_lt in C1. split.
    + apply take_length_nonempty; [lia | exact Hn].
    + now apply contains_take.
  - auto.
Qed.

Lemma suffix_of_png (st : string) :
  st <> EmptyString -> Pathlib.suffix_of_name (st ++ ".png") = ".png".
Proof.
  intro Hs. unfold Pathlib.suffix_of_name.
  assert (Hr : PyStr.rfind Pathlib.dot (st ++ ".png") = Z.of_nat (String.length st)).
  { rewrite rfind_app. change (PyStr.rfind Pathlib.dot ".png") with 0.
    unfold PyStr.len. simpl. lia. }
  assert (Hp : (0 < String.length st)%nat) by (destruct st; simpl; [congruence | lia]).
  rewrite Hr. unfold PyStr.len. rewrite length_app. simpl (String.length ".png").
  destruct (Z.ltb_spec 0 (Z.of_nat (String.length st))); [| lia].
  destruct (Z.ltb_spec (Z.of_nat (String.length st)) (Z.of_nat (String.length st + 4) - 1));
    [| lia].
  simpl andb. cbv iota. rewrite Nat2Z.id. apply drop_app_length.
Qed.

Lemma last_In (l : list string) (d : string) : l <> [] -> In (last l d) l.
Proof.
  induction l as [| x l IH]; [congruence |].
  intros _. destruct l as [| y l].
  - simpl. auto.
  - right. apply IH. discriminate.
Qed.

Lemma name_in_tail (p : Pathlib.Path) :
  Pathlib.name p <> EmptyString -> In (Pathlib.name p) (Pathlib.tail p).
Proof.
  unfold Pathlib.name. intro Hn. apply last_In.
  intro E. rewrite E in Hn. simpl in Hn. congruence.
Qed.

Lemma removelast_good (t : list string) :
  Forall good_part t -> Forall good_part (removelast t).
Proof.
  induction 1 as [| x t Hx Ht IH]; simpl; [constructor |].
  destruct t; [constructor | constructor; assumption].
Qed.

(** The derived output path reads back as itself and ends in [.png]. *)
Lemma derived_output (p : Pathlib.Path) :
  normal p -> Pathlib.name p <> EmptyString ->
  output_ext (Pathlib.to_string (Pathlib.replace_extension p ".png")) = "png".
Proof.
  intros [Hr Ht] Hn.
  assert (Hc : PyStr.contains Pathlib.slash (Pathlib.name p) = false).
  { rewrite Forall_forall in Ht. destruct (Ht _ (name_in_tail p Hn)) as (_ & _ & H). exact H. }
  destruct (stem_good p Hn Hc) as [Hs1 Hs2].
  assert (Hnorm : normal (Pathlib.replace_extension p ".png")).
  { split; [exact Hr |]. simpl. apply Forall_app. split.
    - now apply removelast_good.
    - constructor; [| constructor]. repeat split.
      + destruct (Pathlib.stem p); [congruence | discriminate].
      + destruct (Pathlib.stem p) as [| a [| b s]]; [congruence | discriminate | discriminate].
      + rewrite contains_app, Hs2. reflexivity. }
  unfold output_ext. rewrite of_string_to_string; [| exact Hnorm |].
  - unfold Pathlib.suffix, Pathlib.name. simpl Pathlib.tail. rewrite last_last.
    rewrite (suffix_of_png _ Hs1). reflexivity.
  - simpl. intro E. apply app_eq_nil in E. destruct E as [_ E]. discriminate E.
Qed.

Lemma default_output_derived (i : string) :
  Pathlib.name (Pathlib.of_string i) <> EmptyString ->
  default_output i None
    = Ok (Pathlib.to_string (Pathlib.replace_extension (Pathlib.of_string i) ".png")).
Proof. intro Hn. unfold default_output. now rewrite with_suffix_png. Qed.

(** ** Argument resolution *)

Lemma parse_arguments_accepted (ex : string -> bool) (ns : Namespace) :
  ex (Pathlib.to_string (Pathlib.of_string (input ns))) = true ->
  match format ns with
  | Some f => PyStr.mem f format_choices = true
  | None => True
  end ->
  parse_arguments ex ns =
    match default_output (input ns) (output ns) with
    | Raise e => ArgRaises e
    | Ok out =>
        Parsed (mkNamespace (input ns) (Some (fst (detect_format out (format ns))))
                            (dpi ns) (no_show ns)
                            (Some (snd (detect_format out (format ns)))))
    end.
Proof.
  intros He Hf. unfold parse_arguments. rewrite He.
  destruct (format ns) as [f |] eqn:E.
  - rewrite Hf. cbn [negb].
    destruct (default_output (input ns) (output ns)); reflexivity.
  - cbn [negb].
    destruct (default_output (input ns) (output ns)) as [out | e]; [| reflexivity].
    destruct (detect_format out None); reflexivity.
Qed.

(** C2 (as amended): for an input path whose final component is not empty,
    an unspecified output becomes the input path, in pathlib's normal form,
    with the extension of its final component replaced by [.png]; an
    unspecified format is the lower-cased extension of the output path, with
    [jpg] turned into [jpeg], when that is one of png, jpg, jpeg, pdf, svg,
    and otherwise [png], with [.png] appended to the output path unless it
    already ends with it. *)
Theorem argument_resolution (ex : string -> bool) (i : string) (d : Z) (n : bool) :
  ex (Pathlib.to_string (Pathlib.of_string i)) = true ->
  (Pathlib.name (Pathlib.of_string i) <> EmptyString ->
     parse_arguments ex (mkNamespace i None d n None)
       = Parsed (mkNamespace i
                   (Some (Pathlib.to_string
                            (Pathlib.replace_extension (Pathlib.of_string i) ".png")))
                   d n (Some "png"))) /\
  (Pathlib.name (Pathlib.of_string i) <> EmptyString ->
     forall f, PyStr.mem f format_choices = true ->
       parse_arguments ex (mkNamespace i None d n (Some f))
         = Parsed (mkNamespace i
                     (Some (Pathlib.to_string
                              (Pathlib.replace_extension (Pathlib.of_string i) ".png")))
                     d n (Some f))) /\
  (forall o, PyStr.mem (output_ext o) known_extensions = true ->
     parse_arguments ex (mkNamespace i (Some o) d n None)
       = Parsed (mkNamespace i (Some o) d n
                   (Some (if String.eqb (output_ext o) "jpg" then "jpeg"
                          else output_ext o)))) /\
  (forall o, PyStr.mem (output_ext o) known_extensions = false ->
     parse_arguments ex (mkNamespace i (Some o) d n None)
       = Parsed (mkNamespace i
                   (Some (if PyStr.endswith o ".png" then o else o ++ ".png"))
                   d n (Some "png"))).
Proof.
  intro He. repeat split.
  - intro Hn. rewrite parse_arguments_accepted; [| exact He | exact I].
    cbn [input output format dpi no_show].
    rewrite (default_output_derived i Hn). unfold detect_format.
    rewrite (derived_output _ (of_string_normal i) Hn). reflexivity.
  - intros Hn f Hf. rewrite parse_arguments_accepted; [| exact He | exact Hf].
    cbn [input output format dpi no_show].
    rewrite (default_output_derived i Hn). reflexivity.
  - intros o Ho. rewrite parse_arguments_accepted; [| exact He | exact I].
    cbn [input output format dpi no_show default_output]. unfold detect_format.
    rewrite Ho. reflexivity.
  - intros o Ho. rewrite parse_arguments_accepted; [| exact He | exact I].
    cbn [input output format dpi no_show default_output]. unfold detect_format.
    rewrite Ho. reflexivity.
Qed.

Lemma argument_resolution_witness :
  parse_arguments (fun _ => true) (mkNamespace "a.csv" None 150 false None)
    = Parsed (mkNamespace "a.csv" (Some "a.png") 150 false (Some "png")) /\
  parse_arguments (fun _ => true) (mkNamespace "a.csv" (Some "x.jpg") 150 false None)
    = Parsed (mkNamespace "a.csv" (Some "x.jpg") 150 false (Some "jpeg")) /\
  parse_arguments (fun _ => true) (mkNamespace "a.csv" (Some "x.xyz") 150 false None)
    = Parsed (mkNamespace "a.csv" (Some "x.xyz.png") 150 false (Some "png")).
Proof.
  destruct (argument_resolution (fun _ => true) "a.csv" 150 false eq_refl)
    as (H1 & _ & H2 & H3).
  split; [| split].
  - apply H1. discriminate.
  - apply (H2 "x.jpg"). reflexivity.
  - apply (H3 "x.xyz"). reflexivity.
Defined.

(** C2 as stated fails: the existing path [.] has no final component, and
    deriving the output path from it raises instead of resolving. *)
Lemma argument_resolution_needs_a_name :
  Pathlib.name (Pathlib.of_string ".") = EmptyString /\
  parse_arguments (fun _ => true) (mkNamespace "." None 150 false None)
    = ArgRaises (ValueError "PosixPath('.') has an empty name") /\
  forall args,
    parse_arguments (fun _ => true) (mkNamespace "." None 150 false None) <> Parsed args.
Proof.
  split; [reflexivity |]. split; [reflexivity |].
  intros args H. vm_compute in H. discriminate H.
Qed.

(** C9: with an explicit format the output path is left alone: a supplied
    path is taken as it is, whatever its extension, and an unspecified one is
    the path derived from the input; in both cases the format is the one
    given and no [.png] is appended. *)
Theorem explicit_format_keeps_output (ex : string -> bool) (i : string) (d : Z)
        (n : bool) (f : string) :
  ex (Pathlib.to_string (Pathlib.of_string i)) = true ->
  PyStr.mem f format_choices = true ->
  (forall o,
     parse_arguments ex (mkNamespace i (Some o) d n (Some f))
       = Parsed (mkNamespace i (Some o) d n (Some f))) /\
  parse_arguments ex (mkNamespace i None d n (Some f))
    = match default_output i None with
      | Ok out => Parsed (mkNamespace i (Some out) d n (Some f))
      | Raise e => ArgRaises e
      end /\
  (Pathlib.name (Pathlib.of_string i) <> EmptyString ->
     default_output i None
       = Ok (Pathlib.to_string (Pathlib.replace_extension (Pathlib.of_string i) ".png"))).
Proof.
  intros He Hf. repeat split.
  - intro o. rewrite parse_arguments_accepted; [reflexivity | exact He | exact Hf].
  - rewrite parse_arguments_accepted; [| exact He | exact Hf].
    simpl. destruct (match Pathlib.with_suffix (Pathlib.of_string i) ".png" with
                     | Ok p => Ok (Pathlib.to_string p)
                     | Raise e => Raise e
                     end); reflexivity.
  - apply default_output_derived.
Qed.

Lemma explicit_format_keeps_output_witness :
  parse_arguments (fun _ => true) (mkNamespace "a.csv" (Some "x.xyz") 150 false (Some "pdf"))
    = Parsed (mkNamespace "a.csv" (Some "x.xyz") 150 false (Some "pdf")) /\
  parse_arguments (fun _ => true) (mkNamespace "a.csv" (Some "plot") 150 false (Some "jpg"))
    = Parsed (mkNamespace "a.csv" (Some "plot") 150 false (Some "jpg")) /\
  parse_arguments (fun _ => true) (mkNamespace "a.csv" None 150 false (Some "svg"))
    = Parsed (mkNamespace "a.csv" (Some "a.png") 150 false (Some "svg")).
Proof.
  split; [| split].
  - apply (proj1 (explicit_format_keeps_output (fun _ => true) "a.csv" 150 false "pdf"
                    eq_refl eq_refl) "x.xyz").
  - apply (proj1 (explicit_format_keeps_output (fun _ => true) "a.csv" 150 false "jpg"
                    eq_refl eq_refl) "plot").
  - apply (proj1 (proj2 (explicit_format_keeps_output (fun _ => true) "a.csv" 150 false "svg"
                           eq_refl eq_refl))).
Defined.

(** * Further properties of the script *)

(** ** parse_arguments *)

Lemma parse_arguments_rejected (ex : string -> bool) (ns : Namespace) :
  format_accepted ns = false \/
  ex (Pathlib.to_string (Pathlib.of_string (input ns))) = false ->
  exists msg, parse_arguments ex ns = UsageError msg.
Proof.
  unfold parse_arguments, format_accepted. intros [H | H].
  - destruct (format ns) as [f |]; [| discriminate]. rewrite H. simpl. eauto.
  - destruct (match format ns with
              | Some f => negb (PyStr.mem f format_choices)
              | None => false
              end); [eauto |].
    rewrite H. simpl. eauto.
Qed.

Lemma format_accepted_choice (ns : Namespace) :
  format_accepted ns = true ->
  match format ns with
  | Some f => PyStr.mem f format_choices = true
  | None => True
  end.
Proof. unfold format_accepted. destruct (format ns); auto. Qed.

Lemma inferred_format_known (ext : string) :
  PyStr.mem ext known_extensions = true ->
  In (if String.eqb ext "jpg" then "jpeg" else ext) inferred_formats.
Proof.
  intro H. apply mem_In in H. simpl in H.
  destruct H as [<- | [<- | [<- | [<- | [<- | []]]]]]; simpl; auto.
Qed.

Lemma parsed_was_accepted (ex : string -> bool) (ns args : Namespace) :
  parse_arguments ex ns = Parsed args ->
  format_accepted ns = true /\
  ex (Pathlib.to_string (Pathlib.of_string (input ns))) = true.
Proof.
  intro H.
  destruct (format_accepted ns) eqn:Hf.
  - destruct (ex (Pathlib.to_string (Pathlib.of_string (input ns)))) eqn:He; [auto |].
    destruct (parse_arguments_rejected ex ns (or_intror He)) as [msg Hm]. congruence.
  - destruct (parse_arguments_rejected ex ns (or_introl Hf)) as [msg Hm]. congruence.
Qed.

(** X2: the arguments [parse_arguments] returns keep the input path, the DPI
    and the no-show flag of the command line, and have both an output path
    and a format; the format is one of the five choices, it is the one given
    when one was given, and otherwise one of png, jpeg, pdf, svg (never
    [jpg]); a given output path is kept whenever a format was given too. *)
Theorem parsed_arguments_resolved (ex : string -> bool) (ns args : Namespace) :
  parse_arguments ex ns = Parsed args ->
  input args = input ns /\ dpi args = dpi ns /\ no_show args = no_show ns /\
  exists o f,
    output args = Some o /\ format args = Some f /\
    In f format_choices /\
    (format ns = None -> In f inferred_formats) /\
    (forall f0, format ns = Some f0 -> f = f0) /\
    (forall o0 f0, output ns = Some o0 -> format ns = Some f0 -> o = o0).
Proof.
  intro H.
  destruct (parsed_was_accepted ex ns args H) as [Hf He].
  rewrite (parse_arguments_accepted ex ns He (format_accepted_choice ns Hf)) in H.
  destruct (default_output (input ns) (output ns)) as [out | e] eqn:Hd; [| discriminate].
  injection H as <-. simpl. repeat split.
  eexists. eexists. repeat split.
  - unfold detect_format. destruct (format ns) as [f |] eqn:E.
    + unfold format_accepted in Hf. rewrite E in Hf.
      apply (proj1 (mem_In f format_choices)) in Hf. exact Hf.
    + destruct (PyStr.mem (output_ext out) known_extensions) eqn:M.
      * pose proof (inferred_format_known _ M) as K. simpl in K. simpl. tauto.
      * simpl. auto.
  - intro E. rewrite E. unfold detect_format.
    destruct (PyStr.mem (output_ext out) known_extensions) eqn:M; simpl snd.
    + now apply inferred_format_known.
    + simpl. auto.
  - intros f0 E. rewrite E. reflexivity.
  - intros o0 f0 Eo Ef. rewrite Ef. simpl. rewrite Eo in Hd. simpl in Hd. congruence.
Qed.

Lemma parsed_arguments_resolved_witness :
  input (mkNamespace "a.csv" (Some "x.JPG") 300 true (Some "jpeg")) = "a.csv" /\
  dpi (mkNamespace "a.csv" (Some "x.JPG") 300 true (Some "jpeg")) = 300 /\
  no_show (mkNamespace "a.csv" (Some "x.JPG") 300 true (Some "jpeg")) = true /\
  exists o f,
    output (mkNamespace "a.csv" (Some "x.JPG") 300 true (Some "jpeg")) = Some o /\
    format (mkNamespace "a.csv" (Some "x.JPG") 300 true (Some "jpeg")) = Some f /\
    In f format_choices /\
    (@None string = None -> In f inferred_formats) /\
    (forall f0, @None string = Some f0 -> f = f0) /\
    (forall o0 f0, Some "x.JPG" = Some o0 -> @None string = Some f0 -> o = o0).
Proof.
  apply (parsed_arguments_resolved (fun _ => true)
           (mkNamespace "a.csv" (Some "x.JPG") 300 true None)
           (mkNamespace "a.csv" (Some "x.JPG") 300 true (Some "jpeg"))).
  reflexivity.
Defined.

Lemma take_drop (n : nat) (s : string) : PyStr.take n s ++ PyStr.drop n s = s.
Proof.
  revert s. induction n as [| n IH]; intros [| a s]; simpl; try reflexivity.
  now rewrite IH.
Qed.

Lemma string_app_inv_head (a b c : string) : a ++ b = a ++ c -> b = c.
Proof.
  induction a as [| x a IH]; simpl; intro H; [exact H |].
  injection H as H. now apply IH.
Qed.

Lemma string_app_self (a b : string) : a ++ b = a -> b = EmptyString.
Proof.
  intro H. assert (L := f_equal String.length H). rewrite length_app in L.
  destruct b; [reflexivity | simpl in L; lia].
Qed.

Lemma replace_extension_normal (p : Pathlib.Path) :
  normal p -> Pathlib.name p <> EmptyString ->
  normal (Pathlib.replace_extension p ".png").
Proof.
  intros [Hr Ht] Hn.
  assert (Hc : PyStr.contains Pathlib.slash (Pathlib.name p) = false).
  { rewrite Forall_forall in Ht. destruct (Ht _ (name_in_tail p Hn)) as (_ & _ & H). exact H. }
  destruct (stem_good p Hn Hc) as [Hs1 Hs2].
  split; [exact Hr |]. simpl. apply Forall_app. split.
  - now apply removelast_good.
  - constructor; [| constructor]. repeat split.
    + destruct (Pathlib.stem p); [congruence | discriminate].
    + destruct (Pathlib.stem p) as [| a [| b s]]; [congruence | discriminate | discriminate].
    + rewrite contains_app, Hs2. reflexivity.
Qed.

Lemma stem_png_is_name (p : Pathlib.Path) :
  Pathlib.stem p ++ ".png" = Pathlib.name p <-> Pathlib.suffix p = ".png".
Proof.
  unfold Pathlib.stem, Pathlib.suffix, Pathlib.suffix_of_name.
  destruct ((0 <? PyStr.rfind Pathlib.dot (Pathlib.name p))
            && (PyStr.rfind Pathlib.dot (Pathlib.name p) <? PyStr.len (Pathlib.name p) - 1)).
  - split; intro H.
    + pose proof (take_drop (Z.to_nat (PyStr.rfind Pathlib.dot (Pathlib.name p)))
                    (Pathlib.name p)) as E.
      rewrite <- E in H at 3.
      apply string_app_inv_head in H. now symmetry.
    + rewrite <- H. apply take_drop.
  - split; intro H; [| discriminate H].
    apply string_app_self in H. discriminate H.
Qed.

(** X3: without [--output], the derived output path is the input path itself
    (in pathlib's normal form) exactly when the input path already has the
    extension [.png]: only then does saving the chart write over the input
    file. *)
Theorem default_output_is_input (i : string) :
  Pathlib.name (Pathlib.of_string i) <> EmptyString ->
  (default_output i None = Ok (Pathlib.to_string (Pathlib.of_string i)) <->
   Pathlib.suffix (Pathlib.of_string i) = ".png").
Proof.
  intro Hn. rewrite (default_output_derived i Hn).
  pose proof (of_string_normal i) as Hp.
  set (p := Pathlib.of_string i) in *.
  assert (Ht : Pathlib.tail p <> []).
  { intro E. unfold Pathlib.name in Hn. rewrite E in Hn. simpl in Hn. congruence. }
  rewrite <- stem_png_is_name. split; intro H.
  - injection H as H.
    apply (f_equal Pathlib.of_string) in H.
    rewrite of_string_to_string in H.
    + rewrite (of_string_to_string p Hp Ht) in H.
      unfold Pathlib.replace_extension in H.
      assert (T := f_equal Pathlib.tail H). simpl in T.
      rewrite (app_removelast_last EmptyString Ht) in T at 2.
      apply app_inv_head in T. injection T as T. exact T.
    + now apply replace_extension_normal.
    + simpl. intro E. apply app_eq_nil in E. destruct E as [_ E]. discriminate E.
  - do 2 f_equal. unfold Pathlib.replace_extension. rewrite H.
    unfold Pathlib.name. rewrite <- (app_removelast_last EmptyString Ht).
    destruct p. reflexivity.
Qed.

Lemma default_output_is_input_witness :
  default_output "plots/old.png" None = Ok "plots/old.png" /\
  default_output "./log.csv" None <> Ok "log.csv".
Proof.
  split.
  - apply (proj2 (default_output_is_input "plots/old.png" ltac:(discriminate))).
    reflexivity.
  - intro H.
    apply (proj1 (default_output_is_input "./log.csv" ltac:(discriminate))) in H.
    discriminate H.
Defined.

(** ** The ranges of the summary *)

Lemma Qmin_b_le_l (a b : Q) : (Qmin_b a b <= a)%Q.
Proof.
  unfold Qmin_b. destruct (Qle_bool a b) eqn:E.
  - apply Qle_refl.
  - apply Qlt_le_weak, Qnot_le_lt. intro H.
    apply Qle_bool_iff in H. congruence.
Qed.

Lemma Qmin_b_le_r (a b : Q) : (Qmin_b a b <= b)%Q.
Proof.
  unfold Qmin_b. destruct (Qle_bool a b) eqn:E.
  - now apply Qle_bool_iff.
  - apply Qle_refl.
Qed.

Lemma Qmin_b_cases (a b : Q) : Qmin_b a b = a \/ Qmin_b a b = b.
Proof. unfold Qmin_b. destruct (Qle_bool a b); auto. Qed.

Lemma fold_Qmin_b (l : list Q) (x : Q) :
  In (fold_left Qmin_b l x) (x :: l) /\
  forall y, In y (x :: l) -> (fold_left Qmin_b l x <= y)%Q.
Proof.
  revert x. induction l as [| a l IH]; intro x; simpl.
  - split; [auto |]. intros y [<- | []]. apply Qle_refl.
  - destruct (IH (Qmin_b x a)) as [Hin Hle]. split.
    + destruct Hin as [Hin | Hin]; [| auto].
      destruct (Qmin_b_cases x a) as [E | E]; [left | right; left]; congruence.
    + intros y [<- | [<- | Hy]].
      * eapply Qle_trans; [apply Hle; left; reflexivity | apply Qmin_b_le_l].
      * eapply Qle_trans; [apply Hle; left; reflexivity | apply Qmin_b_le_r].
      * apply Hle. right. exact Hy.
Qed.

(** [min()] of a numeric column is its least present cell. *)
Lemma series_min_least (l : list (option Q)) (m : scalar) :
  series_min (Float64 l) = Ok m -> least l m.
Proof.
  simpl. intro H. injection H as <-.
  unfold reduce. destruct (present l) as [| x xs] eqn:E; simpl.
  - intros y Hy. apply present_In in Hy. rewrite E in Hy. exact Hy.
  - destruct (fold_Qmin_b xs x) as [Hin Hle]. rewrite <- E in Hin, Hle. split.
    + now apply present_In.
    + intros y Hy. apply Hle. now apply present_In.
Qed.

Lemma least_le_greatest (l : list (option Q)) (x y : Q) :
  least l (SNum x) -> greatest l (SNum y) -> (x <= y)%Q.
Proof. intros [Hx _] [_ Hy]. now apply Hy. Qed.

(** X4: the two values printed after "Lux range:" are the least and the
    greatest present cell of the [lux] column, and those printed after
    "Brightness range:" the least and the greatest present cell of
    [current_brightness]; the first never exceeds the second. *)
Theorem range_lines_are_min_and_max (df : DataFrame) :
  (forall lo hi,
     In (Printed [Lit "Lux range: "; lo; Lit " - "; hi]) (fst (summary_report df)) ->
     exists s a b,
       getitem df "lux" = Ok s /\
       series_min s = Ok a /\ format_f 1 a = Ok lo /\
       series_max s = Ok b /\ format_f 1 b = Ok hi /\
       forall l, s = Float64 l ->
         least l a /\ greatest l b /\
         forall x y, a = SNum x -> b = SNum y -> (x <= y)%Q) /\
  (forall lo hi,
     In (Printed [Lit "Brightness range: "; lo; Lit "% - "; hi; Lit "%"])
        (fst (summary_report df)) ->
     exists s a b,
       getitem df "current_brightness" = Ok s /\
       series_min s = Ok a /\ format_f 0 a = Ok lo /\
       series_max s = Ok b /\ format_f 0 b = Ok hi /\
       forall l, s = Float64 l ->
         least l a /\ greatest l b /\
         forall x y, a = SNum x -> b = SNum y -> (x <= y)%Q).
Proof.
  split; intros lo hi Hin; apply summary_report_lines in Hin.
  - inversion Hin as [ | | | | | | s a b flo fhi Hg Ha Hfa Hb Hfb | | | | | | | ]; subst.
    exists s, a, b. repeat split; auto; subst s.
    + now apply series_min_least.
    + now apply series_max_greatest.
    + intros x y -> ->.
      eapply least_le_greatest; [apply series_min_least | apply series_max_greatest];
        eassumption.
  - inversion Hin as [ | | | | | | | s a b flo fhi Hg Ha Hfa Hb Hfb | | | | | | ]; subst.
    exists s, a, b. repeat split; auto; subst s.
    + now apply series_min_least.
    + now apply series_max_greatest.
    + intros x y -> ->.
      eapply least_le_greatest; [apply series_min_least | apply series_max_greatest];
        eassumption.
Qed.

Lemma range_lines_are_min_and_max_witness :
  (exists s a b,
     getitem df_sample "lux" = Ok s /\
     series_min s = Ok a /\ format_f 1 a = Ok (Fixed 1 (Some 10%Q)) /\
     series_max s = Ok b /\ format_f 1 b = Ok (Fixed 1 (Some 20%Q)) /\
     forall l, s = Float64 l ->
       least l a /\ greatest l b /\
       forall x y, a = SNum x -> b = SNum y -> (x <= y)%Q) /\
  (exists s a b,
     getitem df_sample "current_brightness" = Ok s /\
     series_min s = Ok a /\ format_f 0 a = Ok (Fixed 0 (Some 10%Q)) /\
     series_max s = Ok b /\ format_f 0 b = Ok (Fixed 0 (Some 18%Q)) /\
     forall l, s = Float64 l ->
       least l a /\ greatest l b /\
       forall x y, a = SNum x -> b = SNum y -> (x <= y)%Q).
Proof.
  split.
  - apply (proj1 (range_lines_are_min_and_max df_sample)
             (Fixed 1 (Some 10%Q)) (Fixed 1 (Some 20%Q))).
    vm_compute. do 6 right. left. reflexivity.
  - apply (proj2 (range_lines_are_min_and_max df_sample)
             (Fixed 0 (Some 10%Q)) (Fixed 0 (Some 18%Q))).
    vm_compute. do 7 right. left. reflexivity.
Defined.

(** ** The step category distribution *)

Lemma same_key_refl (a : scalar) : same_key a a = true.
Proof.
  destruct a as [q | s |]; simpl; [| apply String.eqb_refl | reflexivity].
  apply Qeq_bool_iff. reflexivity.
Qed.

Lemma same_key_sym (a b : scalar) : same_key a b = same_key b a.
Proof.
  destruct a as [q | s |], b as [q' | s' |]; simpl; try reflexivity.
  - destruct (Qeq_bool q q') eqn:E, (Qeq_bool q' q) eqn:E'; try reflexivity.
    + apply Qeq_bool_iff in E. symmetry in E. apply Qeq_bool_iff in E. congruence.
    + apply Qeq_bool_iff in E'. symmetry in E'. apply Qeq_bool_iff in E'. congruence.
  - apply String.eqb_sym.
Qed.

Lemma same_key_trans (a b c : scalar) :
  same_key a b = true -> same_key b c = true -> same_key a c = true.
Proof.
  destruct a as [q | s |], b as [q' | s' |], c as [q'' | s'' |]; simpl;
    try discriminate; try reflexivity.
  - intros H1 H2. apply Qeq_bool_iff in H1, H2. apply Qeq_bool_iff.
    now rewrite H1.
  - intros H1 H2. apply String.eqb_eq in H1, H2. subst. apply String.eqb_refl.
Qed.

Lemma existsb_false_forall {A : Type} (p : A -> bool) (l : list A) :
  existsb p l = false <-> forall x, In x l -> p x = false.
Proof.
  induction l as [| a l IH]; simpl.
  - split; [intros _ x [] | reflexivity].
  - rewrite orb_false_iff, IH. split.
    + intros [Ha Hl] x [<- | Hx]; auto.
    + intro H. split; [apply H; auto | intros x Hx; apply H; auto].
Qed.

(** What [unique] returns: keys that are pairwise different and new with
    respect to the ones seen, taken from the column, and covering it. *)
Lemma unique_from_keys (l : list scalar) :
  forall seen,
    distinct_keys (unique_from seen l) /\
    (forall k, In k (unique_from seen l) ->
       existsb (same_key k) seen = false /\ In k l) /\
    (forall x, In x l ->
       existsb (same_key x) seen = true \/
       existsb (same_key x) (unique_from seen l) = true).
Proof.
  induction l as [| x l IH]; intro seen; simpl.
  - split; [exact I | split]; intros ? [].
  - destruct (existsb (same_key x) seen) eqn:E.
    + destruct (IH seen) as (Hd & Hk & Hc). split; [exact Hd | split].
      * intros k Hin. destruct (Hk k Hin). auto.
      * intros y [<- | Hy]; [left; exact E | now apply Hc].
    + destruct (IH (x :: seen)) as (Hd & Hk & Hc). split; [| split].
      * split; [| exact Hd].
        apply existsb_false_forall. intros k Hin.
        destruct (Hk k Hin) as [Hs _]. simpl in Hs.
        apply orb_false_iff in Hs. destruct Hs as [Hs _].
        now rewrite same_key_sym.
      * intros k [<- | Hin]; [auto |].
        destruct (Hk k Hin) as [Hs Hl]. simpl in Hs.
        apply orb_false_iff in Hs. tauto.
      * intros y [<- | Hy].
        -- right. simpl. now rewrite same_key_refl.
        -- destruct (Hc y Hy) as [H | H].
           ++ simpl in H. apply orb_true_iff in H. destruct H as [H | H].
              ** right. simpl. now rewrite H.
              ** now left.
           ++ right. simpl. rewrite H. apply orb_true_r.
Qed.

Lemma distinct_keys_filter (p : scalar -> bool) (ks : list scalar) :
  distinct_keys ks -> distinct_keys (filter p ks).
Proof.
  induction ks as [| k ks IH]; simpl; [auto |].
  intros [Hk Hd]. destruct (p k); simpl; [| now apply IH].
  split; [| now apply IH].
  apply existsb_false_forall. intros x Hx. apply filter_In in Hx.
  rewrite existsb_false_forall in Hk. apply Hk. tauto.
Qed.

Lemma total_count_nil (ks : list scalar) : total_count (count_table ks []) = 0%nat.
Proof. induction ks as [| k ks IH]; simpl; [reflexivity | exact IH]. Qed.

Lemma total_count_cons (ks : list scalar) (x : scalar) (l : list scalar) :
  total_count (count_table ks (x :: l))
    = (hits ks x + total_count (count_table ks l))%nat.
Proof.
  unfold hits. induction ks as [| k ks IH]; simpl; [reflexivity |].
  rewrite IH. destruct (same_key k x); simpl; lia.
Qed.

Lemma hits_distinct (ks : list scalar) (x : scalar) :
  distinct_keys ks ->
  hits ks x = if existsb (fun k => same_key k x) ks then 1%nat else 0%nat.
Proof.
  unfold hits. induction ks as [| k ks IH]; simpl; [reflexivity |].
  intros [Hk Hd]. specialize (IH Hd).
  destruct (same_key k x) eqn:E; simpl; [| exact IH].
  assert (Hn : existsb (fun k0 => same_key k0 x) ks = false).
  { apply existsb_false_forall. intros k' Hin.
    destruct (same_key k' x) eqn:E'; [| reflexivity].
    rewrite existsb_false_forall in Hk. specialize (Hk k' Hin).
    rewrite same_key_sym in E'.
    rewrite (same_key_trans k x k' E E') in Hk. discriminate Hk. }
  rewrite Hn in IH. now rewrite IH.
Qed.

Lemma total_count_distinct (ks l : list scalar) :
  distinct_keys ks ->
  total_count (count_table ks l)
    = List.length (filter (fun x => existsb (fun k => same_key k x) ks) l).
Proof.
  intro Hd. induction l as [| x l IH].
  - apply total_count_nil.
  - rewrite total_count_cons, IH, (hits_distinct ks x Hd). simpl.
    destruct (existsb (fun k => same_key k x) ks); simpl; lia.
Qed.

Lemma filter_length_pos {A : Type} (p : A -> bool) (l : list A) (x : A) :
  In x l -> p x = true -> (1 <= List.length (filter p l))%nat.
Proof.
  intros Hin Hp. assert (H : In x (filter p l)) by (apply filter_In; auto).
  destruct (filter p l); [destruct H | simpl; lia].
Qed.

(** The frequency table of a column: one entry per distinct value, each with
    the number of rows holding it, which add up to the number of rows that
    hold a value. *)
Lemma tally_spec (s : Series) :
  total_count (tally s) = List.length (filter not_nan (values s)) /\
  distinct_keys (map fst (tally s)) /\
  (forall k n, In (k, n) (tally s) ->
     is_nan k = false /\ In k (values s) /\
     n = List.length (filter (same_key k) (values s)) /\ (1 <= n)%nat) /\
  (forall v, In v (values s) -> is_nan v = false ->
     exists k n, In (k, n) (tally s) /\ same_key k v = true).
Proof.
  destruct (unique_from_keys (values s) []) as (Hd & Hk & Hc).
  fold (unique s) in Hd, Hk, Hc.
  change (tally s) with (count_table (filter not_nan (unique s)) (values s)).
  pose proof (distinct_keys_filter not_nan _ Hd) as Hd'.
  assert (Hkeys : map fst (count_table (filter not_nan (unique s)) (values s))
                  = filter not_nan (unique s)).
  { unfold count_table. rewrite map_map. simpl. apply map_id. }
  split; [| split; [| split]].
  - rewrite (total_count_distinct _ _ Hd'). f_equal.
    apply filter_ext_in. intros x Hx. unfold not_nan at 2.
    destruct (is_nan x) eqn:N; simpl.
    + apply existsb_false_forall. intros k Hin. apply filter_In in Hin.
      destruct Hin as [_ Hn]. unfold not_nan in Hn.
      destruct x; try discriminate. destruct k; try discriminate; reflexivity.
    + destruct (Hc x Hx) as [H | H]; [discriminate H |].
      apply existsb_exists in H. destruct H as (k & Hin & Hs).
      apply existsb_exists. exists k. split.
      * apply filter_In. split; [exact Hin |]. unfold not_nan.
        destruct k; try reflexivity. destruct x; discriminate.
      * now rewrite same_key_sym.
  - now rewrite Hkeys.
  - intros k n Hin. unfold count_table in Hin. apply in_map_iff in Hin.
    destruct Hin as (k' & E & Hin). injection E as -> <-.
    apply filter_In in Hin. destruct Hin as [Hin Hn].
    destruct (Hk k Hin) as [_ Hv]. unfold not_nan in Hn. apply negb_true_iff in Hn.
    repeat split; auto.
    eapply filter_length_pos; [exact Hv | apply same_key_refl].
  - intros v Hv Hn. destruct (Hc v Hv) as [H | H]; [discriminate H |].
    apply existsb_exists in H. destruct H as (k & Hin & Hs).
    exists k, (List.length (filter (same_key k) (values s))). split.
    + unfold count_table. apply in_map_iff. exists k. split; [reflexivity |].
      apply filter_In. split; [exact Hin |]. unfold not_nan.
      destruct k; try reflexivity. destruct v; discriminate.
    + now rewrite same_key_sym.
Qed.

(** Sorting by count moves entries and changes none. *)

Lemma insert_by_count_In (e x : scalar * nat) (tbl : list (scalar * nat)) :
  In x (insert_by_count e tbl) <-> x = e \/ In x tbl.
Proof.
  induction tbl as [| y tbl IH]; simpl.
  - split; [intros [H | []]; auto | intros [H | []]; auto].
  - destruct (snd y <=? snd e)%nat; simpl; [| rewrite IH]; intuition auto.
Qed.

Lemma by_count_In (x : scalar * nat) (tbl : list (scalar * nat)) :
  In x (by_count tbl) <-> In x tbl.
Proof.
  induction tbl as [| e tbl IH]; simpl; [tauto |].
  rewrite insert_by_count_In, IH. intuition auto.
Qed.

Lemma insert_by_count_total (e : scalar * nat) (tbl : list (scalar * nat)) :
  total_count (insert_by_count e tbl) = (snd e + total_count tbl)%nat.
Proof.
  unfold total_count.
  induction tbl as [| y tbl IH]; simpl; [reflexivity |].
  destruct (snd y <=? snd e)%nat; simpl; [reflexivity |].
  rewrite IH. lia.
Qed.

Lemma by_count_total (tbl : list (scalar * nat)) :
  total_count (by_count tbl) = total_count tbl.
Proof.
  induction tbl as [| e tbl IH]; [reflexivity |].
  change (by_count (e :: tbl)) with (insert_by_count e (by_count tbl)).
  rewrite insert_by_count_total, IH. reflexivity.
Qed.

Lemma insert_by_count_existsb (p : scalar -> bool) (e : scalar * nat)
      (tbl : list (scalar * nat)) :
  existsb p (map fst (insert_by_count e tbl)) = p (fst e) || existsb p (map fst tbl).
Proof.
  induction tbl as [| y tbl IH]; simpl; [reflexivity |].
  destruct (snd y <=? snd e)%nat; simpl; [reflexivity |].
  rewrite IH. destruct (p (fst e)), (p (fst y)); reflexivity.
Qed.

Lemma insert_by_count_distinct (e : scalar * nat) (tbl : list (scalar * nat)) :
  existsb (same_key (fst e)) (map fst tbl) = false ->
  distinct_keys (map fst tbl) ->
  distinct_keys (map fst (insert_by_count e tbl)).
Proof.
  induction tbl as [| y tbl IH]; simpl; intros He Hd.
  - auto.
  - apply orb_false_iff in He. destruct He as [Hy He]. destruct Hd as [Hy' Hd].
    destruct (snd y <=? snd e)%nat; simpl.
    + rewrite Hy, He. auto.
    + rewrite insert_by_count_existsb, same_key_sym, Hy, Hy'. auto.
Qed.

Lemma by_count_existsb (p : scalar -> bool) (tbl : list (scalar * nat)) :
  existsb p (map fst (by_count tbl)) = existsb p (map fst tbl).
Proof.
  induction tbl as [| e tbl IH]; simpl; [reflexivity |].
  now rewrite insert_by_count_existsb, IH.
Qed.

Lemma by_count_distinct (tbl : list (scalar * nat)) :
  distinct_keys (map fst tbl) -> distinct_keys (map fst (by_count tbl)).
Proof.
  induction tbl as [| e tbl IH]; simpl; [auto |].
  intros [He Hd]. apply insert_by_count_distinct; [| now apply IH].
  now rewrite by_count_existsb.
Qed.

Lemma value_counts_spec (s : Series) :
  total_count (value_counts s) = List.length (filter not_nan (values s)) /\
  distinct_keys (map fst (value_counts s)) /\
  (forall k n, In (k, n) (value_counts s) ->
     is_nan k = false /\ In k (values s) /\
     n = List.length (filter (same_key k) (values s)) /\ (1 <= n)%nat) /\
  (forall v, In v (values s) -> is_nan v = false ->
     exists k n, In (k, n) (value_counts s) /\ same_key k v = true).
Proof.
  destruct (tally_spec s) as (Ht & Hd & Hin & Hall).
  unfold value_counts. split; [| split; [| split]].
  - now rewrite by_count_total.
  - now apply by_count_distinct.
  - intros k n H. apply (Hin k n). apply (proj1 (by_count_In (k, n) (tally s))). exact H.
  - intros v Hv Hn. destruct (Hall v Hv Hn) as (k & n & H & Hs).
    exists k, n. split; [apply (proj2 (by_count_In (k, n) (tally s))); exact H | exact Hs].
Qed.

(** X6: the table printed under "Step category distribution" has one entry
    per distinct value of [step_category], missing cells left out; each
    entry counts the rows holding its value (at least one), and the counts
    add up to the number of rows that have a category. *)
Theorem step_category_distribution (df : DataFrame) (tbl : list (scalar * nat)) :
  In (Printed [Counts tbl]) (fst (summary_report df)) ->
  exists sc,
    getitem df "step_category" = Ok sc /\ tbl = value_counts sc /\
    total_count tbl = List.length (filter not_nan (values sc)) /\
    distinct_keys (map fst tbl) /\
    (forall k n, In (k, n) tbl ->
       is_nan k = false /\ In k (values sc) /\
       n = List.length (filter (same_key k) (values sc)) /\ (1 <= n)%nat) /\
    (forall v, In v (values sc) -> is_nan v = false ->
       exists k n, In (k, n) tbl /\ same_key k v = true).
Proof.
  intro Hin. apply summary_report_lines in Hin.
  inversion Hin as [ | | | | | | | | | | | sc Hg | | ]; subst.
  exists sc. split; [exact Hg | split; [reflexivity |]].
  apply value_counts_spec.
Qed.

Lemma step_category_distribution_witness :
  exists sc,
    getitem df_sample "step_category" = Ok sc /\
    [(SStr "none", 2%nat); (SStr "small_up", 1%nat)] = value_counts sc /\
    total_count [(SStr "none", 2%nat); (SStr "small_up", 1%nat)]
      = List.length (filter not_nan (values sc)) /\
    distinct_keys (map fst [(SStr "none", 2%nat); (SStr "small_up", 1%nat)]) /\
    (forall k n, In (k, n) [(SStr "none", 2%nat); (SStr "small_up", 1%nat)] ->
       is_nan k = false /\ In k (values sc) /\
       n = List.length (filter (same_key k) (values sc)) /\ (1 <= n)%nat) /\
    (forall v, In v (values sc) -> is_nan v = false ->
       exists k n, In (k, n) [(SStr "none", 2%nat); (SStr "small_up", 1%nat)] /\
                   same_key k v = true).
Proof.
  apply (step_category_distribution df_sample).
  vm_compute. do 11 right. left. reflexivity.
Defined.

(** ** The chart *)

Lemma lookup_map_values {V W : Type} (g : V -> W) (c : string) (l : list (string * V)) :
  lookup c (map (fun cs => (fst cs, g (snd cs))) l) = option_map g (lookup c l).
Proof.
  induction l as [| [k v] l IH]; simpl; [reflexivity |].
  destruct (String.eqb c k); [reflexivity | exact IH].
Qed.

(** [df[mask][c]] is [df[c]] restricted to the mask. *)
Lemma getitem_mask_getitem (df : DataFrame) (mask : list bool) (c : string) (t : Series) :
  getitem df c = Ok t -> getitem (getitem_mask df mask) c = Ok (select_series mask t).
Proof.
  unfold getitem, getitem_mask. simpl. rewrite lookup_map_values.
  destruct (lookup c (columns df)); [| discriminate].
  intro H. injection H as ->. reflexivity.
Qed.






Lemma lookup_In {V : Type} (c : string) (l : list (string * V)) (v : V) :
  lookup c l = Some v -> In (c, v) l.
Proof.
  induction l as [| [k w] l IH]; simpl; [discriminate |].
  destruct (String.eqb_spec c k) as [-> | _].
  - intro H. injection H as ->. now left.
  - intro H. right. now apply IH.
Qed.

Lemma well_formed_column (df : DataFrame) (c : string) (t : Series) :
  well_formed df = true -> getitem df c = Ok t -> series_length t = nrows df.
Proof.
  unfold well_formed, getitem. intros Hw Hg.
  destruct (lookup c (columns df)) as [t' |] eqn:E; [| discriminate].
  injection Hg as ->. apply lookup_In in E.
  rewrite forallb_forall in Hw. specialize (Hw _ E). simpl in Hw.
  now apply Nat.eqb_eq.
Qed.

Lemma values_length (t : Series) : List.length (values t) = series_length t.
Proof. destruct t; simpl; apply length_map. Qed.

Lemma eq_mask_length (t : Series) (v : scalar) :
  List.length (eq_mask t v) = series_length t.
Proof. unfold eq_mask. now rewrite length_map, values_length. Qed.

Lemma select_length {A : Type} (mask : list bool) (l : list A) :
  List.length mask = List.length l -> List.length (select mask l) = mask_sum mask.
Proof.
  unfold mask_sum. revert l. induction mask as [| b mask IH]; intros [| x l] H;
    simpl in *; try discriminate; [reflexivity |].
  injection H as H. destruct b; simpl.
  - now rewrite IH.
  - destruct (bool_dec false true); [discriminate | now apply IH].
Qed.

Lemma select_series_length (mask : list bool) (t : Series) :
  List.length mask = series_length t ->
  series_length (select_series mask t) = mask_sum mask.
Proof. destruct t; simpl; apply select_length. Qed.




(** ** Scatters and markers *)

(** *** An invariant of the figure, whatever the plotting calls answer *)

Section FigureInvariant.

Variable env : Env.
Variable df : DataFrame.
Variable Q : axis * artist -> Prop.

Lemma ik_bind {A B : Type} (m : M A) (k : A -> M B) :
  inv_kept df Q m -> (forall a, inv_kept df Q (k a)) -> inv_kept df Q (bind m k).
Proof.
  intros Hm Hk s Hs Hf. unfold bind. destruct (Hm s Hs Hf) as [Hd Hq].
  destruct (m s) as [s' [a | x]]; simpl in *.
  - exact (Hk a s' Hd Hq).
  - auto.
Qed.

Lemma ik_col_bind {B : Type} (c : string) (t : Series) (k : Series -> M B) :
  getitem df c = Ok t -> inv_kept df Q (k t) -> inv_kept df Q (bind (col c) k).
Proof.
  intros Hg Hk s Hs Hf.
  cbv beta iota zeta delta [bind col get_df lift].
  rewrite Hs, Hg. exact (Hk s Hs Hf).
Qed.

Lemma ik_get_df_bind {B : Type} (k : DataFrame -> M B) :
  inv_kept df Q (k df) -> inv_kept df Q (bind get_df k).
Proof.
  intros Hk s Hs Hf. cbv beta iota zeta delta [bind get_df].
  rewrite Hs. exact (Hk s Hs Hf).
Qed.

Lemma ik_lift_bind {A B : Type} (r : result A) (k : A -> M B) :
  (forall a, r = Ok a -> inv_kept df Q (k a)) -> inv_kept df Q (bind (lift r) k).
Proof.
  intros Hk s Hs Hf. unfold bind, lift. destruct r as [a | e]; simpl.
  - exact (Hk a eq_refl s Hs Hf).
  - auto.
Qed.

Lemma ik_ret {A : Type} (a : A) : inv_kept df Q (ret a).
Proof. intros s Hs Hf. simpl. auto. Qed.

Lemma ik_draw (ax : axis) (a : artist) : Q (ax, a) -> inv_kept df Q (draw env ax a).
Proof.
  intros Hq s Hs Hf. unfold draw. destruct (draw_error env (st_fig s) ax a); simpl.
  - auto.
  - split; [exact Hs |]. apply Forall_app. split; [exact Hf | now constructor].
Qed.

Lemma ik_tight_layout : inv_kept df Q (tight_layout env).
Proof.
  intros s Hs Hf. unfold tight_layout. destruct (layout_error env (st_fig s)); simpl; auto.
Qed.

Lemma ik_for_each {A : Type} (l : list A) (body : A -> M unit) :
  (forall x, In x l -> inv_kept df Q (body x)) -> inv_kept df Q (for_each l body).
Proof.
  induction l as [| x l IH]; intro Hb; simpl.
  - apply ik_ret.
  - apply ik_bind; [apply Hb; now left | intros _; apply IH].
    intros y Hy. apply Hb. now right.
Qed.

(** After [plt.subplots] the figure is empty, so the invariant starts to
    hold whatever was drawn before. *)
Lemma ik_subplots_bind {B : Type} (k : unit -> M B) (s : State) :
  inv_kept df Q (k tt) -> st_df s = df ->
  st_df (fst (bind (subplots env) k s)) = df /\
  Forall Q (st_fig (fst (bind (subplots env) k s))).
Proof.
  intros Hk Hs. unfold bind, subplots. destruct (subplots_error env); simpl.
  - split; [exact Hs | constructor].
  - apply Hk; simpl; [exact Hs | constructor].
Qed.

End FigureInvariant.

Lemma scatter_values_inv (env : Env) (df : DataFrame) (Q : axis * artist -> Prop)
      (ax : axis) (c : string) (colors : list (string * string)) (t ts : Series)
      (vs : list scalar) :
  getitem df c = Ok t -> getitem df "timestamp" = Ok ts ->
  (forall v, In v vs -> Q (scatter_of ax colors ts t v)) ->
  inv_kept df Q (scatter_values env ax c colors vs).
Proof.
  intros Hc Ht Hq. unfold scatter_values. apply ik_for_each. intros v Hv.
  apply (ik_col_bind df Q c t); [exact Hc |].
  apply ik_get_df_bind.
  rewrite (getitem_mask_getitem df (eq_mask t v) "timestamp" ts Ht).
  apply ik_lift_bind. intros x Hx. injection Hx as <-.
  apply ik_draw. exact (Hq v Hv).
Qed.

(** Every artist that chart composition leaves in the figure, completed or
    not, is a curve, a line, or the scatter of a distinct category or zone. *)
Lemma compose_chart_scatters (env : Env) (df : DataFrame)
      (ts lux tb cb err ss cats zones zc : Series) (s : State) :
  st_df s = df ->
  getitem df "timestamp" = Ok ts -> getitem df "lux" = Ok lux ->
  getitem df "target_brightness" = Ok tb -> getitem df "current_brightness" = Ok cb ->
  getitem df "error" = Ok err -> getitem df "step_size" = Ok ss ->
  getitem df "step_category" = Ok cats -> getitem df "zone" = Ok zones ->
  getitem df "zone_changed" = Ok zc ->
  Forall (chart_scatter ts cats zones) (st_fig (fst (compose_chart env s))).
Proof.
  intros Hs Hts Hlux Htb Hcb Herr Hss Hcats Hzones Hzc.
  unfold compose_chart.
  apply (ik_subplots_bind env df (chart_scatter ts cats zones)); [| exact Hs].
  repeat match goal with
         | |- inv_kept _ _ (bind (col _) _) => eapply ik_col_bind; [eassumption |]
         | |- inv_kept _ _ (bind get_df _) => apply ik_get_df_bind
         | |- inv_kept _ _ (bind _ _) => apply ik_bind; [| intro]
         | |- inv_kept _ _ (tight_layout _) => apply ik_tight_layout
         | |- inv_kept _ _ (draw _ _ _) => apply ik_draw; exact I
         | |- _ => progress cbv beta zeta
         end.
  - apply (scatter_values_inv env df _ Ax3 "step_category" step_colors cats ts);
      [exact Hcats | exact Hts |].
    intros v Hv. unfold chart_scatter. simpl. left. split; [exact Hv | reflexivity].
  - apply (scatter_values_inv env df _ Ax4 "zone" zone_colors zones ts);
      [exact Hzones | exact Hts |].
    intros v Hv. unfold chart_scatter. simpl. right. split; [exact Hv | reflexivity].
  - apply ik_for_each. intros row _.
    apply ik_lift_bind. intros x _. apply ik_draw. exact I.
Qed.

(** X8: on a well-formed frame with the nine columns, every scatter of the
    chart is the scatter of one distinct step category (panel 3) or zone
    (panel 4): its x values are the timestamps of the rows holding that
    value, its y values are that value repeated, both have the same length,
    and its colour is the one the colour table gives, black when it gives
    none.  This holds of the figure as chart composition leaves it, also
    when a plotting call raised on the way. *)
Theorem scatter_shapes (env : Env) (df : DataFrame)
        (ts lux tb cb err ss cats zones zc : Series)
        (fig : Figure) (out : list event)
        (ax : axis) (x : Series) (y : list scalar) (lbl : scalar) (color : string) :
  well_formed df = true ->
  getitem df "timestamp" = Ok ts -> getitem df "lux" = Ok lux ->
  getitem df "target_brightness" = Ok tb -> getitem df "current_brightness" = Ok cb ->
  getitem df "error" = Ok err -> getitem df "step_size" = Ok ss ->
  getitem df "step_category" = Ok cats -> getitem df "zone" = Ok zones ->
  getitem df "zone_changed" = Ok zc ->
  In (ax, Scatter x y lbl color) (st_fig (fst (compose_chart env (mkState df fig out)))) ->
  series_length x = List.length y /\
  y = repeat lbl (List.length y) /\
  ((ax = Ax3 /\ In lbl (unique cats) /\
    x = select_series (eq_mask cats lbl) ts /\
    List.length y = mask_sum (eq_mask cats lbl) /\
    color = dict_get step_colors lbl "black") \/
   (ax = Ax4 /\ In lbl (unique zones) /\
    x = select_series (eq_mask zones lbl) ts /\
    List.length y = mask_sum (eq_mask zones lbl) /\
    color = dict_get zone_colors lbl "black")).
Proof.
  intros Hw Hts Hlux Htb Hcb Herr Hss Hcats Hzones Hzc Hin.
  pose proof (compose_chart_scatters env df ts lux tb cb err ss cats zones zc
                (mkState df fig out) eq_refl
                Hts Hlux Htb Hcb Herr Hss Hcats Hzones Hzc) as Hall.
  rewrite Forall_forall in Hall. apply Hall in Hin.
  unfold chart_scatter in Hin. simpl in Hin.
  pose proof (well_formed_column df _ _ Hw Hts) as Lts.
  destruct Hin as [[Hu E] | [Hu E]]; unfold scatter_of in E;
    injection E as -> -> -> ->; rewrite repeat_length.
  - split; [| split; [reflexivity | left; repeat split; auto]].
    apply select_series_length. rewrite eq_mask_length.
    now rewrite (well_formed_column df _ _ Hw Hcats).
  - split; [| split; [reflexivity | right; repeat split; auto]].
    apply select_series_length. rewrite eq_mask_length.
    now rewrite (well_formed_column df _ _ Hw Hzones).
Qed.

Lemma scatter_shapes_witness :
  series_length (Float64 [cell 1]) = List.length [SStr "outdoor"] /\
  [SStr "outdoor"] = repeat (SStr "outdoor") (List.length [SStr "outdoor"]) /\
  ((Ax4 = Ax3 /\
    In (SStr "outdoor") (unique (Object [Some "none"; Some "small_up"; Some "none"])) /\
    Float64 [cell 1]
      = select_series (eq_mask (Object [Some "none"; Some "small_up"; Some "none"])
                               (SStr "outdoor"))
                      (Float64 [cell 0; cell 1; cell 2]) /\
    List.length [SStr "outdoor"]
      = mask_sum (eq_mask (Object [Some "none"; Some "small_up"; Some "none"])
                          (SStr "outdoor")) /\
    "orange" = dict_get step_colors (SStr "outdoor") "black") \/
   (Ax4 = Ax4 /\
    In (SStr "outdoor") (unique (Object [Some "indoor"; Some "outdoor"; Some "indoor"])) /\
    Float64 [cell 1]
      = select_series (eq_mask (Object [Some "indoor"; Some "outdoor"; Some "indoor"])
                               (SStr "outdoor"))
                      (Float64 [cell 0; cell 1; cell 2]) /\
    List.length [SStr "outdoor"]
      = mask_sum (eq_mask (Object [Some "indoor"; Some "outdoor"; Some "indoor"])
                          (SStr "outdoor")) /\
    "orange" = dict_get zone_colors (SStr "outdoor") "black")).
Proof.
  apply (scatter_shapes (env_of (inr df_sample) None) df_sample
           (Float64 [cell 0; cell 1; cell 2]) (Float64 [cell 10; cell 20; cell 15])
           (Float64 [cell 10; cell 20; cell 15]) (Float64 [cell 10; cell 18; cell 15])
           (Float64 [cell 0; cell 2; cell (-3)]) (Float64 [cell 0; cell 2; cell 0])
           (Object [Some "none"; Some "small_up"; Some "none"])
           (Object [Some "indoor"; Some "outdoor"; Some "indoor"])
           (Float64 [cell 0; cell 1; cell 0]) [] []); try reflexivity.
  vm_compute. do 9 right. left. reflexivity.
Defined.








(** ** Chart composition completes when the columns are there *)








(** ** The runs of the script *)

Lemma save_figure_succeeds (env : Env) (args : Namespace) (s : State) :
  savefig env (output args) (format args) (dpi args) (st_fig s) = None ->
  check_mark_error env = None ->
  save_figure env args s
    = (mkState (st_df s) (st_fig s)
         (st_out s ++ [saving_line args;
                       Saved (output args) (format args) (dpi args) (st_fig s);
                       saved_line args])%list,
       Done tt).
Proof.
  intros Hs Hp. unfold save_figure, print, emit, get_fig, bind. simpl.
  rewrite Hs, Hp. simpl. rewrite <- !app_assoc. reflexivity.
Qed.

(** The file is written, and printing the success line raises: the handler
    of the save reports it and the run exits. *)
Lemma save_figure_unreported (env : Env) (args : Namespace) (s : State) (e : string) :
  savefig env (output args) (format args) (dpi args) (st_fig s) = None ->
  check_mark_error env = Some e ->
  save_figure env args s
    = (mkState (st_df s) (st_fig s)
         (st_out s ++ [saving_line args;
                       Saved (output args) (format args) (dpi args) (st_fig s);
                       save_error_line e])%list,
       Stop (SysExit 1)).
Proof.
  intros Hs Hp. unfold save_figure, print, emit, get_fig, sys_exit, bind. simpl.
  rewrite Hs, Hp. simpl. rewrite <- !app_assoc. reflexivity.
Qed.

Lemma display_runs (args : Namespace) (s : State) :
  display args s
    = (mkState (st_df s) (st_fig s) (st_out s ++ display_events args (st_fig s))%list,
       Done tt).
Proof.
  unfold display, display_events, print, emit, get_fig, bind.
  destruct (negb (no_show args)); simpl; [| reflexivity].
  rewrite <- app_assoc. reflexivity.
Qed.

Lemma summary_never_exits (df : DataFrame) (c : Z) :
  snd (summary_report df) <> Stop (SysExit c).
Proof. run_summary; discriminate. Qed.

(** A completed chart means no required column is absent. *)
Lemma chart_done_columns (env : Env) (df : DataFrame) (s s1 : State) :
  st_df s = df -> compose_chart env s = (s1, Done tt) -> first_missing df = None.
Proof.
  intros Hs Hc. destruct (first_missing df) as [c |] eqn:E; [| reflexivity].
  destruct (compose_chart_key_fails env df c E s Hs) as [(e & Hr & _) _].
  rewrite Hc in Hr. discriminate Hr.
Qed.

(** Every run is one of the six cases. *)
Lemma run_cases (env : Env) (args : Namespace) : run_case env args (run env args).
Proof.
  destruct (read_csv env (input args)) as [e | df] eqn:Hr.
  - replace (run env args) with ([loading_line args; load_error_line e], Exit 1)
      by (unfold run; now rewrite Hr).
    now apply RunLoadError.
  - destruct (Nat.eq_dec (len df) 0) as [Hl | Hl].
    + replace (run env args) with ([loading_line args; empty_line], Exit 1)
        by (unfold run; now rewrite Hr, Hl).
      now apply RunEmpty with df.
    + pose proof (compose_chart_keeps_out env (state_loaded args df)) as Ho.
      destruct (compose_chart_orderly env df (state_loaded args df) eq_refl) as [_ Hend].
      destruct (compose_chart env (state_loaded args df)) as [s1 r1] eqn:Hc.
      simpl in Ho, Hend.
      destruct Hend as [([] & ->) | (x & ->)].
      * pose proof (chart_done_columns env df (state_loaded args df) s1 eq_refl Hc) as Hm.
        destruct (savefig env (output args) (format args) (dpi args) (st_fig s1))
          as [e |] eqn:Hs.
        -- assert (Ha : after_load env args (state_loaded args df)
                        = (mkState (st_df s1) (st_fig s1)
                             (st_out s1 ++ [saving_line args; save_error_line e])%list,
                           Stop (SysExit 1))).
           { unfold after_load. unfold bind at 1. rewrite Hc.
             unfold bind at 1. rewrite (save_figure_fails env args s1 e Hs). reflexivity. }
           rewrite (run_loaded env args df Hr Hl). fold (state_loaded args df).
           rewrite Ha, Ho. simpl. now apply RunSaveError with s1.
        -- destruct (check_mark_error env) as [e |] eqn:Hp.
           ++ assert (Ha : after_load env args (state_loaded args df)
                        = (mkState (st_df s1) (st_fig s1)
                             (st_out s1
                              ++ [saving_line args;
                                  Saved (output args) (format args) (dpi args) (st_fig s1);
                                  save_error_line e])%list,
                           Stop (SysExit 1))).
              { unfold after_load. unfold bind at 1. rewrite Hc.
                unfold bind at 1.
                rewrite (save_figure_unreported env args s1 e Hs Hp). reflexivity. }
              rewrite (run_loaded env args df Hr Hl). fold (state_loaded args df).
              rewrite Ha, Ho. simpl. now apply RunSavedUnreported.
           ++ assert (Hb : before_summary env args (state_loaded args df)
                        = (mkState (st_df s1) (st_fig s1)
                             ((st_out s1
                               ++ [saving_line args;
                                   Saved (output args) (format args) (dpi args) (st_fig s1);
                                   saved_line args])
                              ++ display_events args (st_fig s1))%list,
                           Done tt)).
              { unfold before_summary. unfold bind at 1. rewrite Hc.
                unfold bind at 1. rewrite (save_figure_succeeds env args s1 Hs Hp).
                rewrite display_runs. reflexivity. }
              rewrite (run_reaching_summary env args df _ Hr Hl Hb).
              simpl st_out. rewrite Ho. simpl app. now apply RunSaved.
      * assert (Ha : after_load env args (state_loaded args df)
                     = (s1, Stop (Uncaught x))).
        { unfold after_load. unfold bind at 1. rewrite Hc. reflexivity. }
        rewrite (run_loaded env args df Hr Hl). fold (state_loaded args df).
        rewrite Ha. cbn [fst snd]. rewrite Ho. simpl. now apply RunChartRaises with s1.
Qed.

Lemma summary_events_printed (df : DataFrame) (ev : event) :
  In ev (fst (summary_report df)) -> exists l, ev = Printed l.
Proof.
  intro H. apply summary_report_lines in H. destruct H; eauto.
Qed.

Lemma display_events_cases (args : Namespace) (fig : Figure) (ev : event) :
  In ev (display_events args fig) ->
  (exists l, ev = Printed l) \/ (ev = Shown fig /\ no_show args = false).
Proof.
  unfold display_events. destruct (no_show args); simpl.
  - intros [<- | []]. left. eauto.
  - intros [<- | [<- | []]]; [left; eauto | right; auto].
Qed.

Lemma filter_none {A : Type} (p : A -> bool) (l : list A) :
  (forall x, In x l -> p x = false) -> filter p l = [].
Proof.
  induction l as [| x l IH]; intro H; simpl; [reflexivity |].
  rewrite (H x (or_introl eq_refl)). apply IH. intros y Hy. apply H. now right.
Qed.

(** X12: a run writes the chart at most once, and only after the frame was
    loaded with at least one row and all nine columns and the chart was
    composed; the file is written to the resolved output path, in the
    resolved format and DPI, and holds the composed figure. *)
Theorem file_written_after_chart (env : Env) (args : Namespace) :
  (forall f fmt d fig,
     In (Saved f fmt d fig) (fst (run env args)) ->
     f = output args /\ fmt = format args /\ d = dpi args /\
     exists df s1,
       read_csv env (input args) = inr df /\ len df <> 0%nat /\
       first_missing df = None /\
       compose_chart env (state_loaded args df) = (s1, Done tt) /\
       fig = st_fig s1 /\
       savefig env (output args) (format args) (dpi args) fig = None) /\
  (List.length (filter is_saved (fst (run env args))) <= 1)%nat.
Proof.
  pose proof (run_cases env args) as K.
  destruct K as [e Hr | df Hr Hl | df s1 e Hr Hl Hc | df s1 e Hr Hl Hm Hc Hs
                | df s1 e Hr Hl Hm Hc Hs Hp | df s1 Hr Hl Hm Hc Hs Hp]; simpl fst.
  1-4: split; [intros f fmt d fig Hin; simpl in Hin;
               unfold loading_line, load_error_line, empty_line, loaded_line,
                 saving_line, save_error_line in Hin;
               intuition discriminate
              | simpl; lia].
  { split; [| simpl; lia].
    intros f fmt d fig Hin. cbn [In] in Hin.
    unfold loading_line, loaded_line, saving_line, save_error_line in Hin.
    destruct Hin as [H | [H | [H | [H | [H | []]]]]]; try discriminate H.
    injection H as <- <- <- <-. repeat split. exists df, s1. repeat split; assumption. }
  split.
  - intros f fmt d fig Hin. cbn [In app] in Hin.
    unfold loading_line, loaded_line, saving_line, saved_line in Hin.
    destruct Hin as [H | [H | [H | [H | [H | Hin]]]]]; try discriminate H.
    + injection H as <- <- <- <-. repeat split. exists df, s1. repeat split; assumption.
    + rewrite in_app_iff in Hin. destruct Hin as [Hin | Hin].
      * apply display_events_cases in Hin.
        destruct Hin as [[l H] | [H _]]; discriminate H.
      * apply summary_events_printed in Hin. destruct Hin as [l H]. discriminate H.
  - cbn [app filter is_saved loading_line loaded_line saving_line saved_line].
    rewrite filter_app.
    rewrite (filter_none is_saved (display_events args (st_fig s1))).
    + rewrite (filter_none is_saved (fst (summary_report df))); [simpl; lia |].
      intros ev Hin. apply summary_events_printed in Hin. now destruct Hin as [l ->].
    + intros ev Hin. apply display_events_cases in Hin.
      destruct Hin as [[l ->] | [-> _]]; reflexivity.
Qed.

Lemma file_written_after_chart_witness :
  Some "a.png" = output args_sample /\ Some "png" = format args_sample /\
  150 = dpi args_sample /\
  exists df s1,
    read_csv (env_of (inr df_sample) None) (input args_sample) = inr df /\
    len df <> 0%nat /\ first_missing df = None /\
    compose_chart (env_of (inr df_sample) None) (state_loaded args_sample df)
      = (s1, Done tt) /\
    st_fig (fst (compose_chart (env_of (inr df_sample) None)
                   (state_loaded args_sample df_sample))) = st_fig s1 /\
    savefig (env_of (inr df_sample) None) (output args_sample) (format args_sample)
            (dpi args_sample)
            (st_fig (fst (compose_chart (env_of (inr df_sample) None)
                            (state_loaded args_sample df_sample)))) = None.
Proof.
  apply (proj1 (file_written_after_chart (env_of (inr df_sample) None) args_sample)).
  vm_compute. do 3 right. left. reflexivity.
Defined.

(** X13: the viewer is opened only without [--no-show], and the figure it
    shows is the one that was written to the output file in the same run. *)
Theorem viewer_shows_saved_figure (env : Env) (args : Namespace) (fig : Figure) :
  In (Shown fig) (fst (run env args)) ->
  no_show args = false /\
  In (Saved (output args) (format args) (dpi args) fig) (fst (run env args)).
Proof.
  pose proof (run_cases env args) as K.
  destruct K as [e Hr | df Hr Hl | df s1 e Hr Hl Hc | df s1 e Hr Hl Hm Hc Hs
                | df s1 e Hr Hl Hm Hc Hs Hp | df s1 Hr Hl Hm Hc Hs Hp];
    simpl fst; intro Hin.
  1-5: simpl in Hin;
       unfold loading_line, load_error_line, empty_line, loaded_line,
         saving_line, save_error_line in Hin;
       intuition discriminate.
  cbn [In app] in Hin.
  unfold loading_line, loaded_line, saving_line, saved_line in Hin.
  destruct Hin as [H | [H | [H | [H | [H | Hin]]]]]; try discriminate H.
  rewrite in_app_iff in Hin. destruct Hin as [Hin | Hin].
  - apply display_events_cases in Hin. destruct Hin as [[l H] | [H Hn]]; [discriminate H |].
    injection H as ->. split; [exact Hn |]. simpl. auto 6.
  - apply summary_events_printed in Hin. destruct Hin as [l H]. discriminate H.
Qed.

Lemma viewer_shows_saved_figure_witness :
  no_show args_other = false /\
  In (Saved (output args_other) (format args_other) (dpi args_other)
            (st_fig (fst (compose_chart (env_of (inr df_sample) None)
                            (state_loaded args_other df_sample)))))
     (fst (run (env_of (inr df_sample) None) args_other)).
Proof.
  apply (viewer_shows_saved_figure (env_of (inr df_sample) None) args_other).
  vm_compute. do 6 right. left. reflexivity.
Defined.

(** ** The chart and the summary agree *)





(** The table of [value_counts] is the tally reordered, most frequent first. *)






